(** * Food-delivery marketplace analysis: the aggregation core

    A shallow embedding of [python/analysis_visualizations.py]: the feature
    derivation (lines 29-50 and 176-181), the six grouped aggregations
    (lines 55-58, 77-80, 105-109, 141-148, 183-188, 216-222) and the run of
    the script as a whole.

    Modelling choices.
    - The scalar functions of the script ([discount_band], [order_band] and
      the profitability lambda) only compare their argument with integer
      literals.  They are written once over the class [PyNum] of the
      comparisons Python dispatches to, with an instance for exact rationals
      and one for binary64 floats (so NaN and the infinities are inputs).
    - The columns of the table hold exact rationals [Q]: sums, means and
      rates are the exact ones, equality of amounts is [Qeq].  Rounding of
      binary64 arithmetic is not modelled, so nothing is stated that rests
      on sums being exact or independent of the order of the rows.  The one
      quotient of two columns (line 185) has the infinity or the NaN of
      binary64 where its divisor is zero, and the mean over it skips NaN as
      [Series.mean] does.
    - The key columns read from the file ([payment_method],
      [restaurant_id]) are columns of text without missing cells; what
      [read_csv] makes of an empty cell or of a column of numerals is
      outside the model, and the statements on the order of restaurants
      are for ids that are read as text.
    - Line 26 is modelled on the bytes of a name and agrees with Python on
      ASCII names; of the plotting code the file has the arguments the
      script computes (colour lists, text positions), not the drawing.
    - [pd.read_csv], [pd.to_datetime], [groupby], [agg], [reindex],
      [sort_values] and [nlargest] are pandas; they are modelled from their
      documented behaviour: groups come in ascending key order and keep the
      rows in table order, [reindex] yields a row per requested label with
      missing values undefined, [nlargest] keeps the first occurrences
      among ties, sorting is stable. *)

From Stdlib Require Import String Ascii ZArith QArith Qfield Lqa Bool Lia List.
From Stdlib Require Import Permutation Sorted OrdersEx RelationClasses.
From Stdlib Require Import Floats Uint63.
Import ListNotations.

Local Open Scope nat_scope.
Local Open Scope string_scope.
Local Open Scope list_scope.

(** ** Numbers as the scalar functions see them *)

(** What the script asks of a number: comparison with another number and
    the reading of an integer literal. *)
Class PyNum (A : Type) : Type := {
  lit : Z -> A;
  py_eq : A -> A -> bool;
  py_lt : A -> A -> bool;
  py_le : A -> A -> bool
}.

(** [x > y] is [y < x] for every number type of Python. *)
Definition py_gt {A} `{PyNum A} (x y : A) : bool := py_lt y x.

#[global] Instance PyNum_Q : PyNum Q := {
  lit := inject_Z;
  py_eq := Qeq_bool;
  py_lt := fun x y => negb (Qle_bool y x);
  py_le := Qle_bool
}.

Definition float_of_Z (z : Z) : float :=
  if (z <? 0)%Z then PrimFloat.opp (PrimFloat.of_uint63 (Uint63.of_Z (- z)))
  else PrimFloat.of_uint63 (Uint63.of_Z z).

#[global] Instance PyNum_float : PyNum float := {
  lit := float_of_Z;
  py_eq := PrimFloat.eqb;
  py_lt := PrimFloat.ltb;
  py_le := PrimFloat.leb
}.

(** ** The scalar functions (lines 40-42, 45-49, 176-180) *)

Section Scalar.
Context {A : Type} `{PyNum A}.

(** [lambda x: "Profitable" if x > 0 else "Loss-Making"] *)
Definition profitable_label (x : A) : string :=
  if py_gt x (lit 0) then "Profitable" else "Loss-Making".

Definition discount_band (d : A) : string :=
  if py_eq d (lit 0) then "No Discount"
  else if py_le d (lit 5) then "Low (1-5)"
  else if py_le d (lit 15) then "Mid (6-15)"
  else "High (15+)".

Definition order_band (v : A) : string :=
  if py_lt v (lit 15) then "Low (< $15)"
  else if py_lt v (lit 30) then "Mid ($15-30)"
  else if py_lt v (lit 50) then "High ($30-50)"
  else "Premium (> $50)".
End Scalar.

(** [order_map] of line 146, as the lookup [Series.map] performs: a label
    outside the dictionary maps to a missing value. *)
Definition order_map (band : string) : option nat :=
  if band =? "No Discount" then Some 0%nat
  else if band =? "Low (1-5)" then Some 1%nat
  else if band =? "Mid (6-15)" then Some 2%nat
  else if band =? "High (15+)" then Some 3%nat
  else None.

(** The keys of [order_map] in the order of their values. *)
Definition discount_bands : list string :=
  ["No Discount"; "Low (1-5)"; "Mid (6-15)"; "High (15+)"].

(** [band_order] of line 182. *)
Definition band_order : list string :=
  ["Low (< $15)"; "Mid ($15-30)"; "High ($30-50)"; "Premium (> $50)"].

(** ** The table *)

(** A parsed [datetime64] value, as [pd.to_datetime] returns it; the parsing
    of the text of the file is pandas's own. *)
Record Timestamp : Type := {
  year : nat; month : nat; day : nat;
  hour : nat; minute : nat; second : nat
}.

Definition digit (n : nat) : ascii := ascii_of_nat (48 + n mod 10).

(** [to_period("M").astype(str)]: the year on four digits, a dash, the
    month on two. *)
Definition period_M_str (t : Timestamp) : string :=
  String (digit (year t / 1000)) (String (digit (year t / 100))
    (String (digit (year t / 10)) (String (digit (year t))
      (String "-" (String (digit (month t / 10)) (String (digit (month t)) EmptyString)))))).

(** One line of the file, under the normalised column names of line 26. *)
Module Order.
Record t : Type := {
  order_id : Z;
  restaurant_id : string;
  order_date_and_time : Timestamp;
  delivery_date_and_time : Timestamp;
  order_value : Q;
  delivery_fee : Q;
  payment_method : string;
  discounts_and_offers : Q;
  commission_fee : Q;
  payment_processing_fee : Q;
  refunds_chargebacks : Q
}.
End Order.

(** A row of [df] once the derived columns are in place.  [order_band] is
    appended at line 181, just before its only use; the other derived columns
    at lines 29-50. *)
Module Df.
Record row : Type := {
  raw : Order.t;
  order_date : Timestamp;
  delivery_date : Timestamp;
  order_month : string;
  contribution_margin : Q;
  profitable : string;
  discount_band : string;
  order_band : string
}.
(** The columns read from the file. *)
Definition order_id (r : row) : Z := Order.order_id (raw r).
Definition restaurant_id (r : row) : string := Order.restaurant_id (raw r).
Definition order_value (r : row) : Q := Order.order_value (raw r).
Definition delivery_fee (r : row) : Q := Order.delivery_fee (raw r).
Definition payment_method (r : row) : string := Order.payment_method (raw r).
Definition discounts_and_offers (r : row) : Q := Order.discounts_and_offers (raw r).
Definition commission_fee (r : row) : Q := Order.commission_fee (raw r).
Definition payment_processing_fee (r : row) : Q := Order.payment_processing_fee (raw r).
Definition refunds_chargebacks (r : row) : Q := Order.refunds_chargebacks (raw r).
End Df.

Definition margin_of (o : Order.t) : Q :=
  (Order.commission_fee o + Order.delivery_fee o
   - Order.payment_processing_fee o
   - Order.discounts_and_offers o
   - Order.refunds_chargebacks o)%Q.

Definition derive_row (o : Order.t) : Df.row := {|
  Df.raw := o;
  Df.order_date := Order.order_date_and_time o;
  Df.delivery_date := Order.delivery_date_and_time o;
  Df.order_month := period_M_str (Order.order_date_and_time o);
  Df.contribution_margin := margin_of o;
  Df.profitable := profitable_label (margin_of o);
  Df.discount_band := discount_band (Order.discounts_and_offers o);
  Df.order_band := order_band (Order.order_value o)
|}.

(** The enriched table; the position of a row is its index label
    ([read_csv] gives a [RangeIndex]). *)
Definition derive (orders : list Order.t) : list Df.row := map derive_row orders.

(** [df.loc[i]]: [None] stands for the [KeyError] of a label that is not
    in the index. *)
Definition loc (df : list Df.row) (i : nat) : option Df.row := nth_error df i.

(** A column of some rows of the table: index labels with their values. *)
Definition Series (V : Type) : Type := list (nat * V).

(** ** pandas: grouping, reducers, sorting *)

Definition str_le (a b : string) : bool :=
  match String_as_OT.compare a b with Gt => false | _ => true end.

Section GroupBy.
Context {R : Type}.

(** The groups under construction: ascending keys, each with its rows in
    the order met. *)
Fixpoint add_to_group (k : string) (r : R) (gs : list (string * list R))
  : list (string * list R) :=
  match gs with
  | [] => [(k, [r])]
  | (k', g) :: gs' =>
      match String_as_OT.compare k k' with
      | Lt => (k, [r]) :: gs
      | Eq => (k', g ++ [r]) :: gs'
      | Gt => (k', g) :: add_to_group k r gs'
      end
  end.

Definition group_rows (key : R -> string) (rows : list R) : list (string * list R) :=
  fold_left (fun gs r => add_to_group (key r) r gs) rows [].

(** Stable insertion: [x] goes before the first [y] with [le x y]. *)
Fixpoint insert_sorted (le : R -> R -> bool) (x : R) (l : list R) : list R :=
  match l with
  | [] => [x]
  | y :: l' => if le x y then x :: l else y :: insert_sorted le x l'
  end.

Definition sort_by (le : R -> R -> bool) (l : list R) : list R :=
  fold_right (insert_sorted le) [] l.

Fixpoint assoc (k : string) (gs : list (string * R)) : option R :=
  match gs with
  | [] => None
  | (k', v) :: gs' => if k =? k' then Some v else assoc k gs'
  end.
End GroupBy.

(** The rows of a table with their index labels. *)
Definition indexed {R} (df : list R) : list (nat * R) := combine (seq 0 (length df)) df.

(** [df.groupby(col)] on a column of text in which no cell is missing: one
    group per value of the column, in ascending order of the values
    ([sort=True] is the default; strings compare by code point).  The
    derived columns are such columns for every file; [payment_method] and
    [restaurant_id] are when [read_csv] reads their cells as text. *)
Definition groupby (col : Df.row -> string) (df : list Df.row)
  : list (string * list (nat * Df.row)) :=
  group_rows (fun ir => col (snd ir)) (indexed df).

(** The column [c] of a group. *)
Definition column {V} (c : Df.row -> V) (g : list (nat * Df.row)) : Series V :=
  map (fun ir => (fst ir, c (snd ir))) g.

Definition values {V} (s : Series V) : list V := map snd s.

(** The exact sum, from the left. *)
Definition Qsum (l : list Q) : Q := fold_left Qplus l 0%Q.

Definition Q_of_nat (n : nat) : Q := inject_Z (Z.of_nat n).

(** The reducers ["count"], ["sum"] and ["mean"].  No value of the model
    is missing, so [count] is the length. *)
Definition count {V} (s : Series V) : nat := length s.
Definition sum (s : Series Q) : Q := Qsum (values s).
Definition mean (s : Series Q) : Q := (sum s / Q_of_nat (count s))%Q.

(** [(x > 0).sum()] *)
Definition count_positive (s : Series Q) : nat :=
  length (filter (fun v => py_gt v (lit 0)) (values s)).

(** [sort_values(by)] ascending on a rational column, a string column and
    on the [sort] column of chart 4 (a missing key goes last). *)
Definition sort_values_Q {R} (by_ : R -> Q) : list R -> list R :=
  sort_by (fun a b => Qle_bool (by_ a) (by_ b)).

Definition sort_values_str {R} (by_ : R -> string) : list R -> list R :=
  sort_by (fun a b => str_le (by_ a) (by_ b)).

Definition opt_le (a b : option nat) : bool :=
  match a, b with
  | Some x, Some y => (x <=? y)%nat
  | _, None => true
  | None, Some _ => false
  end.

Definition sort_values_opt {R} (by_ : R -> option nat) : list R -> list R :=
  sort_by (fun a b => opt_le (by_ a) (by_ b)).

(** [nlargest(n, col)]: the [n] rows with the largest values in descending
    order, the first occurrences kept among equal values. *)
Definition nlargest {R} (n : nat) (col : R -> Q) (l : list R) : list R :=
  firstn n (sort_by (fun a b => Qle_bool (col b) (col a)) l).

(** [reindex(labels)]: a row per label, in the order of [labels]; a label
    the table does not have gets a row of missing values. *)
Definition reindex {V} (labels : list string) (t : list (string * V))
  : list (string * option V) :=
  map (fun k => (k, assoc k t)) labels.

(** Failure propagates: an aggregation function that raises aborts [agg]. *)
Definition bind {X Y} (m : option X) (k : X -> option Y) : option Y :=
  match m with Some x => k x | None => None end.

Notation "x <- m ;; k" := (bind m (fun x => k))
  (at level 61, m at next level, right associativity).

Fixpoint agg_each {X Y} (f : X -> option Y) (l : list X) : option (list Y) :=
  match l with
  | [] => Some []
  | x :: l' => y <- f x ;; ys <- agg_each f l' ;; Some (y :: ys)
  end.

(** ** The six summary tables *)

(** Chart 1 (lines 55-58). *)
Module AovPay.
Record row : Type := {
  payment_method : string;
  avg_order_value : Q;
  total_orders : nat
}.
End AovPay.

Definition aov_pay (df : list Df.row) : list AovPay.row :=
  sort_values_Q AovPay.avg_order_value
    (map (fun kg => {|
       AovPay.payment_method := fst kg;
       AovPay.avg_order_value := mean (column Df.order_value (snd kg));
       AovPay.total_orders := count (column Df.order_id (snd kg)) |})
     (groupby Df.payment_method df)).

(** Chart 2 (lines 77-80). *)
Module Monthly.
Record row : Type := {
  order_month : string;
  total_orders : nat;
  total_gmv : Q
}.
End Monthly.

Definition monthly (df : list Df.row) : list Monthly.row :=
  sort_values_str Monthly.order_month
    (map (fun kg => {|
       Monthly.order_month := fst kg;
       Monthly.total_orders := count (column Df.order_id (snd kg));
       Monthly.total_gmv := sum (column Df.order_value (snd kg)) |})
     (groupby Df.order_month df)).

(** Chart 3 (lines 105-109). *)
Module Profit.
Record row : Type := {
  profitable : string;
  order_count : nat;
  total_margin : Q;
  avg_order_value : Q
}.
End Profit.

Definition profit_summary (df : list Df.row) : list Profit.row :=
  map (fun kg => {|
    Profit.profitable := fst kg;
    Profit.order_count := count (column Df.order_id (snd kg));
    Profit.total_margin := sum (column Df.contribution_margin (snd kg));
    Profit.avg_order_value := mean (column Df.order_value (snd kg)) |})
  (groupby Df.profitable df).

(** Chart 4 (lines 141-148): the groups that exist, put in the order of
    [order_map]. *)
Module Disc.
Record row : Type := {
  discount_band : string;
  avg_order_value : Q;
  avg_contribution : Q;
  order_count : nat;
  sort : option nat
}.
End Disc.

Definition disc_impact (df : list Df.row) : list Disc.row :=
  sort_values_opt Disc.sort
    (map (fun kg => {|
       Disc.discount_band := fst kg;
       Disc.avg_order_value := mean (column Df.order_value (snd kg));
       Disc.avg_contribution := mean (column Df.contribution_margin (snd kg));
       Disc.order_count := count (column Df.order_id (snd kg));
       Disc.sort := order_map (fst kg) |})
     (groupby Df.discount_band df)).

(** ** Quotients that need not be numbers (line 185) *)

(** The value of a binary64 expression over the amounts of the table: a
    number, an infinity or NaN.  The zero of a column is the positive one. *)
Inductive Float64 : Type :=
| Fin (q : Q)
| PInf
| NInf
| NaN.

(** [a / b] on two cells: the quotient of a number by zero is the infinity
    of its sign, [0 / 0] is NaN. *)
Definition float_div (a b : Q) : Float64 :=
  if Qeq_bool b 0 then
    if Qeq_bool a 0 then NaN else if Qle_bool 0 a then PInf else NInf
  else Fin (a / b).

Definition is_nan (x : Float64) : bool :=
  match x with NaN => true | _ => false end.

Definition is_pinf (x : Float64) : bool :=
  match x with PInf => true | _ => false end.

Definition is_ninf (x : Float64) : bool :=
  match x with NInf => true | _ => false end.

Definition finite_values (l : list Float64) : list Q :=
  flat_map (fun x => match x with Fin q => [q] | _ => [] end) l.

(** The mean of a list of cells as [Series.mean] takes it ([skipna=True]):
    the NaN cells are left out of the sum and of the count, and no cell
    left gives NaN; infinities of one sign sum to that infinity, of both
    signs to NaN. *)
Definition nanmean_values (l : list Float64) : Float64 :=
  let kept := filter (fun x => negb (is_nan x)) l in
  match kept with
  | [] => NaN
  | _ :: _ =>
      match existsb is_pinf kept, existsb is_ninf kept with
      | true, true => NaN
      | true, false => PInf
      | false, true => NInf
      | false, false => Fin (Qsum (finite_values kept) / Q_of_nat (length kept))
      end
  end.

Definition nanmean (s : Series Float64) : Float64 := nanmean_values (values s).

(** [x * 100] *)
Definition times_100 (x : Float64) : Float64 :=
  match x with
  | Fin q => Fin (q * 100)
  | PInf => PInf
  | NInf => NInf
  | NaN => NaN
  end.

(** Chart 5 (lines 183-188). *)
Module Band.
(** The reducers of one group. *)
Record agg : Type := {
  agg_delivery_fee_pct : Float64;
  agg_avg_margin : Q;
  agg_count : nat
}.
(** A row of [band_data]; a missing value is [NaN] in [delivery_fee_pct]
    and [None] in the two other columns. *)
Record row : Type := {
  order_band : string;
  delivery_fee_pct : Float64;
  avg_margin : option Q;
  count : option nat
}.
End Band.

(** [df.loc[idx, col]] for a list of labels. *)
Definition loc_col {V} (df : list Df.row) (c : Df.row -> V) (idx : list nat)
  : option (Series V) :=
  agg_each (fun i => r <- loc df i ;; Some (i, c r)) idx.

(** [x / y] for two series over the same labels in the same order. *)
Definition series_div (x y : Series Q) : Series Float64 :=
  map (fun p => (fst (fst p), float_div (snd (fst p)) (snd (snd p)))) (combine x y).

(** [lambda x: (x / df.loc[x.index, "order_value"]).mean() * 100] *)
Definition delivery_fee_pct_of (df : list Df.row) (x : Series Q) : option Float64 :=
  ov <- loc_col df Df.order_value (map fst x) ;;
  Some (times_100 (nanmean (series_div x ov))).

Definition band_agg (df : list Df.row) (kg : string * list (nat * Df.row))
  : option (string * Band.agg) :=
  pct <- delivery_fee_pct_of df (column Df.delivery_fee (snd kg)) ;;
  Some (fst kg, {|
    Band.agg_delivery_fee_pct := pct;
    Band.agg_avg_margin := mean (column Df.contribution_margin (snd kg));
    Band.agg_count := count (column Df.order_id (snd kg)) |}).

Definition band_row (kv : string * option Band.agg) : Band.row := {|
  Band.order_band := fst kv;
  Band.delivery_fee_pct :=
    match snd kv with Some a => Band.agg_delivery_fee_pct a | None => NaN end;
  Band.avg_margin := option_map Band.agg_avg_margin (snd kv);
  Band.count := option_map Band.agg_count (snd kv) |}.

Definition band_data (df : list Df.row) : option (list Band.row) :=
  t <- agg_each (band_agg df) (groupby Df.order_band df) ;;
  Some (map band_row (reindex band_order t)).

(** Chart 6 (lines 216-222). *)
Module Refund.
Record row : Type := {
  restaurant_id : string;
  total_orders : nat;
  refund_orders : nat;
  total_refund : Q;
  refund_rate : Q
}.
End Refund.

Definition rest_refund (df : list Df.row) : list Refund.row :=
  map (fun kg =>
    let total_orders := count (column Df.order_id (snd kg)) in
    let refund_orders := count_positive (column Df.refunds_chargebacks (snd kg)) in {|
      Refund.restaurant_id := fst kg;
      Refund.total_orders := total_orders;
      Refund.refund_orders := refund_orders;
      Refund.total_refund := sum (column Df.refunds_chargebacks (snd kg));
      Refund.refund_rate := (Q_of_nat refund_orders / Q_of_nat total_orders * 100)%Q |})
  (groupby Df.restaurant_id df).

(** Line 222, as a function of the grouped table. *)
Definition top_of (rest_refund : list Refund.row) : list Refund.row :=
  nlargest 10 Refund.refund_rate
    (filter (fun r => (5 <=? Refund.total_orders r)%nat) rest_refund).

Definition top_refund (df : list Df.row) : list Refund.row := top_of (rest_refund df).

(** ** The run of the script *)

(** The six tables of a run. *)
Record Reports : Type := {
  rep_aov_pay : list AovPay.row;
  rep_monthly : list Monthly.row;
  rep_profit_summary : list Profit.row;
  rep_disc_impact : list Disc.row;
  rep_band_data : list Band.row;
  rep_top_refund : list Refund.row
}.

(** What a saved figure shows: the table handed to the plotting calls. *)
Inductive Figure : Type :=
| FigAov (t : list AovPay.row)
| FigMonthly (t : list Monthly.row)
| FigProfit (t : list Profit.row)
| FigDisc (t : list Disc.row)
| FigBand (t : list Band.row)
| FigRefund (t : list Refund.row).

(** The files the script touches: [../data/food_orders.csv] ([None] when
    there is no such file) and the directory [FIG_DIR] ([None] when it does
    not exist yet). *)
Record World : Type := {
  food_orders_csv : option (list Order.t);
  visualizations : option (list (string * Figure))
}.

(** [os.makedirs(FIG_DIR, exist_ok=True)] *)
Definition makedirs_exist_ok (w : World) : World := {|
  food_orders_csv := food_orders_csv w;
  visualizations :=
    match visualizations w with
    | Some files => Some files
    | None => Some []
    end |}.

Fixpoint write_file {V} (name : string) (v : V) (files : list (string * V))
  : list (string * V) :=
  match files with
  | [] => [(name, v)]
  | (n, v') :: files' =>
      if name =? n then (n, v) :: files' else (n, v') :: write_file name v files'
  end.

(** [plt.savefig(f"{FIG_DIR}/name")]: fails without the directory,
    replaces a file of the same name. *)
Definition savefig (name : string) (fig : Figure) (w : World) : option World :=
  files <- visualizations w ;;
  Some {| food_orders_csv := food_orders_csv w;
          visualizations := Some (write_file name fig files) |}.

(** [pd.read_csv("../data/food_orders.csv")] *)
Definition read_csv (w : World) : option (list Order.t) := food_orders_csv w.

(** The script from top to bottom: the world it leaves and the tables it
    computed, or [None] for an unhandled exception.  The exceptions of the
    model are those of the file system and of [agg]; the drawing calls of
    matplotlib are taken to return, and [FIG_DIR] to be a directory when
    it exists. *)
Definition run (w : World) : option (World * Reports) :=
  let w := makedirs_exist_ok w in
  orders <- read_csv w ;;
  let df := derive orders in
  let aov_pay := aov_pay df in
  w <- savefig "aov_by_payment_method.png" (FigAov aov_pay) w ;;
  let monthly := monthly df in
  w <- savefig "monthly_gmv_trend.png" (FigMonthly monthly) w ;;
  let profit_summary := profit_summary df in
  w <- savefig "profitability_breakdown.png" (FigProfit profit_summary) w ;;
  let disc_impact := disc_impact df in
  w <- savefig "discount_impact_margin.png" (FigDisc disc_impact) w ;;
  band_data <- band_data df ;;
  w <- savefig "delivery_cost_by_order_band.png" (FigBand band_data) w ;;
  let top_refund := top_refund df in
  w <- savefig "refund_rate_by_restaurant.png" (FigRefund top_refund) w ;;
  Some (w, {|
    rep_aov_pay := aov_pay;
    rep_monthly := monthly;
    rep_profit_summary := profit_summary;
    rep_disc_impact := disc_impact;
    rep_band_data := band_data;
    rep_top_refund := top_refund |}).

(** ** Sample data *)

Definition ts (y m d : nat) : Timestamp :=
  {| year := y; month := m; day := d; hour := 12; minute := 0; second := 0 |}.

(** An order with the fees of the end-to-end example of the specification. *)
Definition order_A : Order.t := {|
  Order.order_id := 1; Order.restaurant_id := "R1";
  Order.order_date_and_time := ts 2024 1 5; Order.delivery_date_and_time := ts 2024 1 5;
  Order.order_value := 40; Order.delivery_fee := 3; Order.payment_method := "Credit Card";
  Order.discounts_and_offers := 0; Order.commission_fee := 5;
  Order.payment_processing_fee := 1; Order.refunds_chargebacks := 0 |}.

Definition order_B : Order.t := {|
  Order.order_id := 2; Order.restaurant_id := "R2";
  Order.order_date_and_time := ts 2024 1 28; Order.delivery_date_and_time := ts 2024 1 28;
  Order.order_value := 12; Order.delivery_fee := 1; Order.payment_method := "Cash on Delivery";
  Order.discounts_and_offers := 10; Order.commission_fee := 2;
  Order.payment_processing_fee := 1 # 2; Order.refunds_chargebacks := 0 |}.

(** An order of January 2024 paid by card, with 2 of commission and 1 of
    processing fee and without discount. *)
Definition sample_order (id : Z) (rid : string) (value fee refund : Q) : Order.t := {|
  Order.order_id := id; Order.restaurant_id := rid;
  Order.order_date_and_time := ts 2024 1 9; Order.delivery_date_and_time := ts 2024 1 9;
  Order.order_value := value; Order.delivery_fee := fee; Order.payment_method := "Credit Card";
  Order.discounts_and_offers := 0; Order.commission_fee := 2;
  Order.payment_processing_fee := 1; Order.refunds_chargebacks := refund |}.

(** Ten lines: five orders of B7, then five of A3, one order of each
    refunded, so that both have a refund rate of 20. *)
Definition orders_ties : list Order.t :=
  [ sample_order 1 "B7" 20 2 5; sample_order 2 "B7" 20 2 0; sample_order 3 "B7" 40 4 0;
    sample_order 4 "B7" 10 1 0; sample_order 5 "B7" 10 3 0;
    sample_order 6 "A3" 20 2 0; sample_order 7 "A3" 20 2 8; sample_order 8 "A3" 40 4 0;
    sample_order 9 "A3" 10 1 0; sample_order 10 "A3" 10 3 0 ].

(** Three lines of the lowest band, one of them with neither value nor
    fee and one with a fee on no value. *)
Definition orders_zero_value : list Order.t :=
  [ sample_order 1 "A3" 10 3 0; sample_order 2 "A3" 0 0 0 ].

Definition orders_fee_on_nothing : list Order.t :=
  [ sample_order 1 "A3" 10 3 0; sample_order 2 "A3" 0 2 0 ].

(** ** Notions the statements use *)

(** A restaurant id that [read_csv] keeps as text whatever the other cells
    of the column are: a letter first and a digit somewhere, as in R2924.
    It is no numeral and none of the markers of a missing value. *)
Definition is_letter (c : ascii) : bool :=
  let n := nat_of_ascii c in
  (Nat.leb 65 n && Nat.leb n 90) || (Nat.leb 97 n && Nat.leb n 122).

Definition is_digit (c : ascii) : bool :=
  let n := nat_of_ascii c in Nat.leb 48 n && Nat.leb n 57.

Definition is_text_id (s : string) : bool :=
  match s with
  | EmptyString => false
  | String c s' => is_letter c && existsb is_digit (list_ascii_of_string s')
  end.

(** The restaurant ids of a file are all text. *)
Definition text_ids (orders : list Order.t) : Prop :=
  Forall (fun o => is_text_id (Order.restaurant_id o) = true) orders.

(** The restaurants in the order the lines of the file first meet them. *)
Fixpoint first_met (ids : list string) : list string :=
  match ids with
  | [] => []
  | id :: ids' => id :: filter (fun x => negb (x =? id)) (first_met ids')
  end.

(** The order of strings that [groupby] sorts its keys by. *)
Definition str_lt : string -> string -> Prop := String_as_OT.lt.

Definition keys_sorted {R} (gs : list (string * list R)) : Prop :=
  StronglySorted str_lt (map fst gs).

(** The rows of a group, as a selection of the table. *)
Definition group_of {R} (key : R -> string) (k : string) (rows : list R) : list R :=
  filter (fun r => key r =? k) rows.

Definition lookup_group {R} (key : R -> string) (k : string) (rows : list R)
  : option (list R) :=
  match group_of key k rows with [] => None | g => Some g end.

(** The rows of [df] whose column [col] holds [k], in table order. *)
Definition rows_in (col : Df.row -> string) (k : string) (df : list Df.row)
  : list Df.row :=
  filter (fun r => col r =? k) df.

(** The group of [k], with the labels of its rows. *)
Definition group_at (col : Df.row -> string) (df : list Df.row) (k : string)
  : list (nat * Df.row) :=
  group_of (fun ir => col (snd ir)) k (indexed df).

(** Whether some row of the table has [b] in column [col]. *)
Definition has_band (col : Df.row -> string) (df : list Df.row) (b : string) : bool :=
  existsb (fun r => col r =? b) df.

Definition le_prop {R} (le : R -> R -> bool) (a b : R) : Prop := le a b = true.

(** The row of [monthly] for the month [k]. *)
Definition monthly_row (df : list Df.row) (k : string) : Monthly.row := {|
  Monthly.order_month := k;
  Monthly.total_orders := length (rows_in Df.order_month k df);
  Monthly.total_gmv := Qsum (map Df.order_value (rows_in Df.order_month k df)) |}.

(** The discount labels in the order of strings. *)
Definition discount_bands_sorted : list string :=
  ["High (15+)"; "Low (1-5)"; "Mid (6-15)"; "No Discount"].

(** The delivery fee as a share of the order value, row by row. *)
Definition fee_share (r : Df.row) : Float64 :=
  float_div (Df.delivery_fee r) (Df.order_value r).

Definition band_agg_of (kg : string * list (nat * Df.row)) : string * Band.agg :=
  (fst kg, {|
     Band.agg_delivery_fee_pct := times_100 (nanmean (column fee_share (snd kg)));
     Band.agg_avg_margin := mean (column Df.contribution_margin (snd kg));
     Band.agg_count := count (column Df.order_id (snd kg)) |}).

(** The mean of column [c] over the rows of band [b]. *)
Definition mean_in (col : Df.row -> string) (b : string) (c : Df.row -> Q)
           (df : list Df.row) : Q :=
  (Qsum (map c (rows_in col b df)) / Q_of_nat (length (rows_in col b df)))%Q.

(** The row of [band_data] for the label [b]. *)
Definition band_data_row (df : list Df.row) (b : string) : Band.row :=
  if has_band Df.order_band df b then {|
    Band.order_band := b;
    Band.delivery_fee_pct :=
      times_100 (nanmean_values (map fee_share (rows_in Df.order_band b df)));
    Band.avg_margin := Some (mean_in Df.order_band b Df.contribution_margin df);
    Band.count := Some (length (rows_in Df.order_band b df)) |}
  else {|
    Band.order_band := b;
    Band.delivery_fee_pct := NaN;
    Band.avg_margin := None;
    Band.count := None |}.

(** Whether the row carries a refund, from the order of [Q]. *)
Definition refunded (r : Df.row) : bool :=
  if Qlt_le_dec 0 (Df.refunds_chargebacks r) then true else false.

(** Follows the specification: the number of the restaurant's rows with a
    refund above zero, over the number of its rows, times 100. *)
Definition refund_rate_spec (id : string) (df : list Df.row) : Q :=
  let rows := rows_in Df.restaurant_id id df in
  (Q_of_nat (length (filter refunded rows)) / Q_of_nat (length rows) * 100)%Q.


(** The row of [rest_refund] for the restaurant [k]. *)
Definition rest_refund_row (df : list Df.row) (k : string) : Refund.row :=
  let rows := rows_in Df.restaurant_id k df in {|
    Refund.restaurant_id := k;
    Refund.total_orders := length rows;
    Refund.refund_orders := length (filter refunded rows);
    Refund.total_refund := Qsum (map Df.refunds_chargebacks rows);
    Refund.refund_rate := refund_rate_spec k df |}.

(** The order [nlargest] sorts by: [a] before [b] when the rate of [a] is
    not below that of [b]. *)
Definition rate_ge (a b : Refund.row) : bool :=
  Qle_bool (Refund.refund_rate b) (Refund.refund_rate a).

(** The groups with five orders or more. *)
Definition qualified (t : list Refund.row) : list Refund.row :=
  filter (fun r => (5 <=? Refund.total_orders r)%nat) t.

(** Saving a list of files one after the other. *)
Definition write_all {V} (l files : list (string * V)) : list (string * V) :=
  fold_left (fun fs nv => write_file (fst nv) (snd nv) fs) l files.

Definition reports_of (df : list Df.row) (band_data : list Band.row) : Reports := {|
  rep_aov_pay := aov_pay df;
  rep_monthly := monthly df;
  rep_profit_summary := profit_summary df;
  rep_disc_impact := disc_impact df;
  rep_band_data := band_data;
  rep_top_refund := top_refund df |}.

(** The six files of a run, in the order they are saved. *)
Definition figures_of (t : Reports) : list (string * Figure) :=
  [ ("aov_by_payment_method.png", FigAov (rep_aov_pay t));
    ("monthly_gmv_trend.png", FigMonthly (rep_monthly t));
    ("profitability_breakdown.png", FigProfit (rep_profit_summary t));
    ("discount_impact_margin.png", FigDisc (rep_disc_impact t));
    ("delivery_cost_by_order_band.png", FigBand (rep_band_data t));
    ("refund_rate_by_restaurant.png", FigRefund (rep_top_refund t)) ].

(** The place of a binary64 value in the order of the floats, as a triple
    compared component by component: the class (infinities, negative,
    zero, positive), then the exponent, then the mantissa.  NaN has none. *)
Definition sf_key (x : spec_float) : option (Z * Z * Z) :=
  match x with
  | S754_nan => None
  | S754_infinity true => Some (-2, 0, 0)%Z
  | S754_finite true m e => Some (-1, - e, Zneg m)%Z
  | S754_zero _ => Some (0, 0, 0)%Z
  | S754_finite false m e => Some (1, e, Zpos m)%Z
  | S754_infinity false => Some (2, 0, 0)%Z
  end.

Definition float_key (x : float) : option (Z * Z * Z) := sf_key (Prim2SF x).

Definition lex3 (a b : Z * Z * Z) : comparison :=
  match a, b with
  | (a1, a2, a3), (b1, b2, b3) =>
      match (a1 ?= b1)%Z with
      | Eq => match (a2 ?= b2)%Z with Eq => (a3 ?= b3)%Z | r => r end
      | r => r
      end
  end.

Definition lex_lt (a b : Z * Z * Z) : Prop :=
  let '(a1, a2, a3) := a in
  let '(b1, b2, b3) := b in
  (a1 < b1 \/ (a1 = b1 /\ (a2 < b2 \/ (a2 = b2 /\ a3 < b3))))%Z.

Definition lex_eq (a b : Z * Z * Z) : Prop :=
  let '(a1, a2, a3) := a in
  let '(b1, b2, b3) := b in
  (a1 = b1 /\ a2 = b2 /\ a3 = b3)%Z.

Definition cmp_key (a b : option (Z * Z * Z)) : option comparison :=
  match a, b with
  | Some a, Some b => Some (lex3 a b)
  | _, _ => None
  end.

(** The rows of the grouped table of the ranking example. *)
Definition sample_R1 : Refund.row := {|
  Refund.restaurant_id := "R1"; Refund.total_orders := 10; Refund.refund_orders := 3;
  Refund.total_refund := 45; Refund.refund_rate := 30 |}.

Definition sample_R2 : Refund.row := {|
  Refund.restaurant_id := "R2"; Refund.total_orders := 4; Refund.refund_orders := 4;
  Refund.total_refund := 60; Refund.refund_rate := 100 |}.

Definition sample_R3 : Refund.row := {|
  Refund.restaurant_id := "R3"; Refund.total_orders := 6; Refund.refund_orders := 1;
  Refund.total_refund := 15; Refund.refund_rate := 20 |}.

(** Two worlds with the same input file: a first run, and a run over the
    files of an earlier one. *)
Definition world_fresh : World := {|
  food_orders_csv := Some [order_A; order_B];
  visualizations := None |}.

Definition world_used : World := {|
  food_orders_csv := Some [order_A; order_B];
  visualizations := Some [("aov_by_payment_method.png", FigAov [])] |}.

(** ** Column names (line 26) *)

(** The characters [str.strip] removes, among the ASCII ones: tab to
    carriage return, the four separators 28-31 and the space. *)
Definition isspace (c : ascii) : bool :=
  let n := nat_of_ascii c in
  (Nat.leb 9 n && Nat.leb n 13) || (Nat.leb 28 n && Nat.leb n 32).

(** [str.lower] on an ASCII character. *)
Definition lower_char (c : ascii) : ascii :=
  let n := nat_of_ascii c in
  if Nat.leb 65 n && Nat.leb n 90 then ascii_of_nat (n + 32) else c.

Fixpoint str_map (f : ascii -> ascii) (s : string) : string :=
  match s with
  | EmptyString => EmptyString
  | String c s' => String (f c) (str_map f s')
  end.

Fixpoint lstrip (s : string) : string :=
  match s with
  | EmptyString => EmptyString
  | String c s' => if isspace c then lstrip s' else s
  end.

Fixpoint rstrip (s : string) : string :=
  match s with
  | EmptyString => EmptyString
  | String c s' =>
      match rstrip s' with
      | EmptyString => if isspace c then EmptyString else String c EmptyString
      | t => String c t
      end
  end.

(** [s.strip()] *)
Definition strip (s : string) : string := rstrip (lstrip s).

(** [s.lower()] *)
Definition lower (s : string) : string := str_map lower_char s.

(** [s.replace(old, new)] for one-character [old] and [new]. *)
Definition replace_char (old new : ascii) (s : string) : string :=
  str_map (fun c => if Ascii.eqb c old then new else c) s.

(** One name through line 26:
    [.str.strip().str.lower().str.replace(" ", "_").str.replace("/", "_")]. *)
Definition normalize_column (s : string) : string :=
  replace_char "/" "_" (replace_char " " "_" (lower (strip s))).

(** [df.columns] after line 26. *)
Definition normalize_columns (columns : list string) : list string :=
  map normalize_column columns.

(** The names the model reads as Python reads them: ASCII only. *)
Definition ascii_only (s : string) : Prop :=
  Forall (fun c => nat_of_ascii c < 128) (list_ascii_of_string s).

Definition chars (s : string) : list ascii := list_ascii_of_string s.

(** Upper case of an ASCII letter, for statements about letter case. *)
Definition upper_char (c : ascii) : ascii :=
  let n := nat_of_ascii c in
  if Nat.leb 97 n && Nat.leb n 122 then ascii_of_nat (n - 32) else c.

Definition is_upper (c : ascii) : bool :=
  let n := nat_of_ascii c in Nat.leb 65 n && Nat.leb n 90.

Definition all_space (s : string) : Prop := Forall (fun c => isspace c = true) (chars s).

(** The character map of line 26 once the name is stripped: lower case,
    then [" "] and ["/"] to ["_"]. *)
Definition norm_char (c : ascii) : ascii :=
  let c1 := lower_char c in
  let c2 := if Ascii.eqb c1 " " then "_"%char else c1 in
  if Ascii.eqb c2 "/" then "_"%char else c2.

(** ** What the plotting calls are given (lines 20, 61-62, 113-127, 192-193, 225) *)

Definition PALETTE : list string :=
  ["#2E86AB"; "#E84855"; "#3BB273"; "#F5A623"; "#7B61FF"; "#FF6B35"].

(** [PALETTE[:len(aov_pay)]] (line 62) and [PALETTE[:4]] (line 193). *)
Definition aov_colors (aov_pay : list AovPay.row) : list string :=
  firstn (length aov_pay) PALETTE.

Definition band_colors : list string := firstn 4 PALETTE.

(** [colors_bar] of lines 120-121. *)
Definition colors_bar (profit_summary : list Profit.row) : list string :=
  map (fun r => if Profit.profitable r =? "Profitable" then "#3BB273" else "#E84855")
    profit_summary.

(** The [colors] argument of the pie of line 115. *)
Definition pie_colors : list string := ["#3BB273"; "#E84855"].

(** The colours of the wedges of a pie of [n] values: matplotlib cycles
    through [colors]. *)
Definition wedge_colors (colors : list string) (n : nat) : list string :=
  map (fun i => nth (i mod length colors) colors "") (seq 0 n).

(** The height of the text over a bar of chart 3 (line 125). *)
Definition margin_label_y (r : Profit.row) : Q :=
  (Profit.total_margin r + (if py_gt (Profit.total_margin r) (lit 0) then 50 else - (150)))%Q.

(** [colors_ref] of line 225. *)
Definition colors_ref (top_refund : list Refund.row) : list string :=
  map (fun r => if py_gt (Refund.refund_rate r) (lit 20)
                then nth 1 PALETTE "" else nth 0 PALETTE "")
    top_refund.

(** ** Further notions the statements use *)

(** The row of [aov_pay] for the payment method [k]. *)
Definition aov_pay_row (df : list Df.row) (k : string) : AovPay.row := {|
  AovPay.payment_method := k;
  AovPay.avg_order_value := mean_in Df.payment_method k Df.order_value df;
  AovPay.total_orders := length (rows_in Df.payment_method k df) |}.

(** The row of [profit_summary] for the label [k]. *)
Definition profit_row (df : list Df.row) (k : string) : Profit.row := {|
  Profit.profitable := k;
  Profit.order_count := length (rows_in Df.profitable k df);
  Profit.total_margin := Qsum (map Df.contribution_margin (rows_in Df.profitable k df));
  Profit.avg_order_value := mean_in Df.profitable k Df.order_value df |}.

(** The row of [disc_impact] for the band [k]. *)
Definition disc_row (df : list Df.row) (k : string) : Disc.row := {|
  Disc.discount_band := k;
  Disc.avg_order_value := mean_in Df.discount_band k Df.order_value df;
  Disc.avg_contribution := mean_in Df.discount_band k Df.contribution_margin df;
  Disc.order_count := length (rows_in Df.discount_band k df);
  Disc.sort := order_map k |}.

(** A missing count read as no order. *)
Definition count_or_0 (c : option nat) : nat :=
  match c with Some n => n | None => 0 end.

(** The place of a label in a list of labels. *)
Fixpoint position (label : string) (labels : list string) : nat :=
  match labels with
  | [] => 0
  | l :: labels' => if label =? l then 0 else S (position label labels')
  end.

(** The two labels of [profitable] in the order of strings. *)
Definition profit_labels : list string := ["Loss-Making"; "Profitable"].

(** What the ranking of line 222 reads and shows of a row: the restaurant,
    its two counts and its rate. *)
Definition rank_key (r : Refund.row) : string * nat * nat * Q :=
  (Refund.restaurant_id r, Refund.total_orders r, Refund.refund_orders r,
   Refund.refund_rate r).

(** The files of the figure directory before a run. *)
Definition files_before (w : World) : list (string * Figure) :=
  match visualizations w with Some fs => fs | None => [] end.

(** The rows with an order value, and the rows with a delivery fee on an
    order value of zero. *)
Definition valued (rows : list Df.row) : list Df.row :=
  filter (fun r => negb (Qeq_bool (Df.order_value r) 0)) rows.

Definition fee_on_nothing (rows : list Df.row) : list Df.row :=
  filter (fun r => Qeq_bool (Df.order_value r) 0 && negb (Qeq_bool (Df.delivery_fee r) 0))
    rows.

(** * Properties *)

(** ** Comparisons of rationals *)

Lemma py_lt_Q (x y : Q) : py_lt x y = true <-> (x < y)%Q.
Proof.
  cbn. rewrite negb_true_iff, <- not_true_iff_false, Qle_bool_iff.
  split; [apply Qnot_le_lt | apply Qlt_not_le].
Qed.

Lemma py_le_Q (x y : Q) : py_le x y = true <-> (x <= y)%Q.
Proof. cbn. apply Qle_bool_iff. Qed.

Lemma py_eq_Q (x y : Q) : py_eq x y = true <-> (x == y)%Q.
Proof. cbn. apply Qeq_bool_iff. Qed.

Lemma py_gt_Q (x y : Q) : py_gt x y = true <-> (y < x)%Q.
Proof. unfold py_gt. apply py_lt_Q. Qed.

Lemma py_lt_Q_false (x y : Q) : py_lt x y = false <-> (y <= x)%Q.
Proof.
  rewrite <- not_true_iff_false, py_lt_Q.
  split; [apply Qnot_lt_le | apply Qle_not_lt].
Qed.

Lemma py_le_Q_false (x y : Q) : py_le x y = false <-> (y < x)%Q.
Proof.
  rewrite <- not_true_iff_false, py_le_Q.
  split; [apply Qnot_le_lt | apply Qlt_not_le].
Qed.

Lemma py_eq_Q_false (x y : Q) : py_eq x y = false <-> ~ (x == y)%Q.
Proof. rewrite <- not_true_iff_false, py_eq_Q. tauto. Qed.

(** Case analysis on a comparison of rationals, leaving its meaning as a
    hypothesis. *)
Ltac cmp_Q :=
  match goal with
  | |- context [py_eq ?x ?y] =>
      let E := fresh "E" in
      destruct (py_eq x y) eqn:E;
      [apply py_eq_Q in E | apply py_eq_Q_false in E]
  | |- context [py_le ?x ?y] =>
      let E := fresh "E" in
      destruct (py_le x y) eqn:E;
      [apply py_le_Q in E | apply py_le_Q_false in E]
  | |- context [py_lt ?x ?y] =>
      let E := fresh "E" in
      destruct (py_lt x y) eqn:E;
      [apply py_lt_Q in E | apply py_lt_Q_false in E]
  end.

(** ** The scalar functions *)

Lemma profitable_label_cases {A} `{PyNum A} (x : A) :
  (py_gt x (lit 0) = true /\ profitable_label x = "Profitable")
  \/ (py_gt x (lit 0) = false /\ profitable_label x = "Loss-Making").
Proof. unfold profitable_label. destruct (py_gt x (lit 0)); auto. Qed.

Lemma profitable_label_iff {A} `{PyNum A} (x : A) :
  profitable_label x = "Profitable" <-> py_gt x (lit 0) = true.
Proof.
  destruct (profitable_label_cases x) as [[E L] | [E L]]; rewrite L, E;
    split; intro; (reflexivity || discriminate).
Qed.

Lemma discount_band_in {A} `{PyNum A} (d : A) : In (discount_band d) discount_bands.
Proof.
  unfold discount_band, discount_bands.
  destruct (py_eq d (lit 0)); [| destruct (py_le d (lit 5)); [| destruct (py_le d (lit 15))]];
    simpl; auto.
Qed.

Lemma order_band_in {A} `{PyNum A} (v : A) : In (order_band v) band_order.
Proof.
  unfold order_band, band_order.
  destruct (py_lt v (lit 15)); [| destruct (py_lt v (lit 30)); [| destruct (py_lt v (lit 50))]];
    simpl; auto.
Qed.

Lemma derive_In (orders : list Order.t) (r : Df.row) :
  In r (derive orders) <-> exists o, In o orders /\ r = derive_row o.
Proof.
  unfold derive. rewrite in_map_iff. split; intros [o [H1 H2]]; exists o; auto.
Qed.

(** C1, as amended: on every row of the enriched table [contribution_margin]
    is [commission_fee + delivery_fee - payment_processing_fee -
    discounts_and_offers - refunds_chargebacks]; the order with commission 5,
    delivery 3, processing 1, discount 0 and refund 0 has margin 7, the one
    with commission 2, delivery 1, processing 0.5, discount 10 and refund 0
    has margin -7.5. *)
Theorem contribution_margin_formula :
  (forall orders : list Order.t,
     Forall (fun r =>
       Df.contribution_margin r =
         (Df.commission_fee r + Df.delivery_fee r - Df.payment_processing_fee r
          - Df.discounts_and_offers r - Df.refunds_chargebacks r)%Q)
       (derive orders))
  /\ (Df.contribution_margin (derive_row order_A) == 7)%Q
  /\ (Df.contribution_margin (derive_row order_B) == - (15 # 2))%Q.
Proof.
  split; [| split; reflexivity].
  intro orders. apply Forall_forall. intros r Hr.
  apply derive_In in Hr. destruct Hr as [o [_ ->]]. reflexivity.
Qed.

(** C1, the example as the claim words it: the fees 5, 3, 1, 0, 0 do not
    give a margin of 8. *)
Lemma contribution_margin_example_not_8 :
  (Order.commission_fee order_A == 5)%Q /\ (Order.delivery_fee order_A == 3)%Q
  /\ (Order.payment_processing_fee order_A == 1)%Q
  /\ (Order.discounts_and_offers order_A == 0)%Q
  /\ (Order.refunds_chargebacks order_A == 0)%Q
  /\ ~ (Df.contribution_margin (derive_row order_A) == 8)%Q.
Proof. repeat split; try reflexivity. intro H. discriminate H. Qed.

(** C2: on every row the label is "Profitable" exactly when the margin is
    positive, "Loss-Making" otherwise; a margin of 0 is "Loss-Making". *)
Theorem profitable_iff_positive_margin (orders : list Order.t) :
  Forall (fun r =>
    (Df.profitable r = "Profitable" <-> (0 < Df.contribution_margin r)%Q)
    /\ (Df.profitable r = "Loss-Making" <-> ~ (0 < Df.contribution_margin r)%Q)
    /\ ((Df.contribution_margin r == 0)%Q -> Df.profitable r = "Loss-Making"))
    (derive orders).
Proof.
  apply Forall_forall. intros r Hr.
  apply derive_In in Hr. destruct Hr as [o [_ ->]]. cbn [Df.profitable Df.contribution_margin derive_row].
  destruct (profitable_label_cases (margin_of o)) as [[E L] | [E L]]; rewrite L.
  - apply py_gt_Q in E. change (lit 0) with 0%Q in E.
    repeat split; intros; try discriminate; try assumption; try contradiction.
    exfalso. rewrite H in E. discriminate E.
  - assert (N : ~ (0 < margin_of o)%Q).
    { intro P. apply (py_gt_Q (margin_of o) 0) in P. change (lit 0) with 0%Q in E.
      rewrite P in E. discriminate. }
    repeat split; intros; try discriminate; try assumption; try contradiction.
Qed.

(** The branch [discount_band] takes on a rational. *)
Lemma discount_band_Q_cases (d : Q) :
  ((d == 0)%Q /\ discount_band d = "No Discount")
  \/ (~ (d == 0)%Q /\ (d <= 5)%Q /\ discount_band d = "Low (1-5)")
  \/ ((5 < d)%Q /\ (d <= 15)%Q /\ discount_band d = "Mid (6-15)")
  \/ ((15 < d)%Q /\ discount_band d = "High (15+)").
Proof.
  unfold discount_band. change (@lit Q _ 0) with 0%Q.
  change (@lit Q _ 5) with 5%Q. change (@lit Q _ 15) with 15%Q.
  cmp_Q; [ tauto |].
  cmp_Q; [ tauto |].
  cmp_Q; [ right; right; left; tauto | right; right; right; tauto ].
Qed.

Lemma order_band_Q_cases (v : Q) :
  ((v < 15)%Q /\ order_band v = "Low (< $15)")
  \/ ((15 <= v)%Q /\ (v < 30)%Q /\ order_band v = "Mid ($15-30)")
  \/ ((30 <= v)%Q /\ (v < 50)%Q /\ order_band v = "High ($30-50)")
  \/ ((50 <= v)%Q /\ order_band v = "Premium (> $50)").
Proof.
  unfold order_band. change (@lit Q _ 15) with 15%Q.
  change (@lit Q _ 30) with 30%Q. change (@lit Q _ 50) with 50%Q.
  cmp_Q; [ tauto |].
  cmp_Q; [ tauto |].
  cmp_Q; [ right; right; left; tauto | right; right; right; tauto ].
Qed.

(** Closes a goal about a band from the branch taken: the label decides the
    equations between strings, linear arithmetic the bounds. *)
Ltac band_solve :=
  repeat match goal with
    | H : _ /\ _ |- _ => destruct H
    | H : discount_band _ = _ |- _ => rewrite H in *; clear H
    | H : order_band _ = _ |- _ => rewrite H in *; clear H
    end;
  repeat split; intros;
  repeat match goal with H : _ /\ _ |- _ => destruct H end;
  try reflexivity; try discriminate; try assumption; try lra;
  try (exfalso; lra).

(** C4: on the non-negative discounts the four bands are [d = 0],
    [0 < d <= 5], [5 < d <= 15] and [15 < d]: each label is given exactly on
    its interval, so exactly one band applies to every such value. *)
Theorem discount_band_partition (d : Q) (Hd : (0 <= d)%Q) :
  (discount_band d = "No Discount" <-> (d == 0)%Q)
  /\ (discount_band d = "Low (1-5)" <-> (0 < d)%Q /\ (d <= 5)%Q)
  /\ (discount_band d = "Mid (6-15)" <-> (5 < d)%Q /\ (d <= 15)%Q)
  /\ (discount_band d = "High (15+)" <-> (15 < d)%Q)
  /\ In (discount_band d) discount_bands.
Proof.
  pose proof (discount_band_in d) as Hin.
  destruct (discount_band_Q_cases d) as [C | [C | [C | C]]]; band_solve.
Qed.

Lemma discount_band_partition_witness :
  discount_band (3 # 1)%Q = "Low (1-5)" <-> (0 < 3 # 1)%Q /\ (3 # 1 <= 5)%Q.
Proof.
  apply (proj1 (proj2 (discount_band_partition (3 # 1)%Q ltac:(discriminate)))).
Defined.

(** C5: the four order bands are [v < 15], [15 <= v < 30], [30 <= v < 50]
    and [50 <= v]; an order value of exactly 50 is Premium. *)
Theorem order_band_partition (v : Q) :
  (order_band v = "Low (< $15)" <-> (v < 15)%Q)
  /\ (order_band v = "Mid ($15-30)" <-> (15 <= v)%Q /\ (v < 30)%Q)
  /\ (order_band v = "High ($30-50)" <-> (30 <= v)%Q /\ (v < 50)%Q)
  /\ (order_band v = "Premium (> $50)" <-> (50 <= v)%Q)
  /\ In (order_band v) band_order
  /\ order_band 50%Q = "Premium (> $50)".
Proof.
  pose proof (order_band_in v) as Hin.
  destruct (order_band_Q_cases v) as [C | [C | [C | C]]]; band_solve.
Qed.

(** ** Grouping *)

Lemma str_compare_spec (a b : string) :
  CompareSpec (a = b) (str_lt a b) (str_lt b a) (String_as_OT.compare a b).
Proof. exact (String_as_OT.compare_spec a b). Qed.

Lemma compare_refl (k : string) : String_as_OT.compare k k = Eq.
Proof.
  destruct (str_compare_spec k k) as [_ | H | H]; try reflexivity;
    exfalso; exact (StrictOrder_Irreflexive k H).
Qed.

Lemma str_lt_neq (a b : string) : str_lt a b -> a <> b.
Proof. intros H ->. exact (StrictOrder_Irreflexive b H). Qed.

Lemma str_lt_trans (a b c : string) : str_lt a b -> str_lt b c -> str_lt a c.
Proof. apply (@StrictOrder_Transitive _ _ String_as_OT.lt_strorder). Qed.

Section GroupFacts.
Context {R : Type}.
Implicit Types (gs : list (string * list R)) (k : string) (r : R).

Lemma add_to_group_keys k r gs k' :
  In k' (map fst (add_to_group k r gs)) <-> k' = k \/ In k' (map fst gs).
Proof.
  induction gs as [| [k1 g1] gs IH]; simpl.
  - intuition auto.
  - destruct (str_compare_spec k k1) as [E | L | G]; simpl.
    + subst k1. intuition auto.
    + intuition auto.
    + rewrite IH. intuition auto.
Qed.

Lemma add_to_group_sorted k r gs :
  keys_sorted gs -> keys_sorted (add_to_group k r gs).
Proof.
  unfold keys_sorted. induction gs as [| [k1 g1] gs IH]; simpl; intro S.
  - repeat constructor.
  - inversion S as [| ? ? S' F]; subst.
    destruct (str_compare_spec k k1) as [E | L | G]; simpl.
    + assumption.
    + constructor; [assumption |]. constructor; [assumption |].
      eapply Forall_impl; [| exact F]. intros a Ha. exact (str_lt_trans _ _ _ L Ha).
    + constructor; [auto |].
      apply Forall_forall. intros a Ha. apply add_to_group_keys in Ha.
      destruct Ha as [-> | Ha]; [assumption |].
      rewrite Forall_forall in F. auto.
Qed.

Lemma assoc_not_in {V} k (t : list (string * V)) :
  ~ In k (map fst t) -> assoc k t = None.
Proof.
  induction t as [| [k1 v1] t IH]; simpl; intro N; [reflexivity |].
  destruct (String.eqb_spec k k1) as [-> | _]; [exfalso; auto | auto].
Qed.

Lemma assoc_in_keys {V} k (t : list (string * V)) v :
  assoc k t = Some v -> In (k, v) t.
Proof.
  induction t as [| [k1 v1] t IH]; simpl; [discriminate |].
  destruct (String.eqb_spec k k1) as [-> | _].
  - intros [= ->]. auto.
  - auto.
Qed.

Lemma sorted_head_not_in k1 (ks : list string) k :
  Forall (str_lt k1) ks -> (k = k1 \/ str_lt k k1) -> ~ In k ks.
Proof.
  intros F Hk Hin. rewrite Forall_forall in F. specialize (F _ Hin).
  destruct Hk as [-> | L].
  - exact (StrictOrder_Irreflexive _ F).
  - exact (StrictOrder_Irreflexive _ (str_lt_trans _ _ _ L F)).
Qed.

(** In a table with sorted keys, a pair is in the table exactly when the
    lookup of its key gives its value. *)
Lemma assoc_sorted_iff {V} (t : list (string * V)) k v :
  StronglySorted str_lt (map fst t) -> (In (k, v) t <-> assoc k t = Some v).
Proof.
  intro S. split; [| apply assoc_in_keys].
  induction t as [| [k1 v1] t IH]; simpl; [tauto |].
  inversion S as [| ? ? S' F]; subst.
  intros [[= -> ->] | Hin].
  - rewrite String.eqb_refl. reflexivity.
  - destruct (String.eqb_spec k k1) as [-> | _]; [| auto].
    exfalso. apply (sorted_head_not_in k1 (map fst t) k1 F); [auto |].
    apply in_map_iff. exists (k1, v). auto.
Qed.

(** The lookup after a row has been added. *)
Lemma assoc_add_to_group k r gs k' :
  keys_sorted gs ->
  assoc k' (add_to_group k r gs)
  = if k' =? k
    then Some (match assoc k gs with Some g => g ++ [r] | None => [r] end)
    else assoc k' gs.
Proof.
  unfold keys_sorted. induction gs as [| [k1 g1] gs IH]; simpl; intro S.
  - destruct (k' =? k); reflexivity.
  - inversion S as [| ? ? S' F]; subst.
    destruct (str_compare_spec k k1) as [E | L | G]; simpl.
    + subst k1. rewrite String.eqb_refl.
      destruct (String.eqb_spec k' k); reflexivity.
    + destruct (String.eqb_spec k k1) as [E | _]; [exfalso; exact (str_lt_neq _ _ L E) |].
      rewrite (assoc_not_in k gs)
        by (apply (sorted_head_not_in k1); auto).
      destruct (String.eqb_spec k' k); reflexivity.
    + destruct (String.eqb_spec k k1) as [E | _];
        [exfalso; symmetry in E; exact (str_lt_neq _ _ G E) |].
      rewrite (IH S').
      destruct (String.eqb_spec k' k1) as [-> | _]; [| reflexivity].
      destruct (String.eqb_spec k1 k) as [E | _]; [| reflexivity].
      exfalso. exact (str_lt_neq _ _ G E).
Qed.

Variable key : R -> string.

Lemma group_rows_inv (rows done : list R) gs :
  keys_sorted gs ->
  (forall k, assoc k gs = lookup_group key k done) ->
  let gs' := fold_left (fun gs r => add_to_group (key r) r gs) rows gs in
  keys_sorted gs' /\ forall k, assoc k gs' = lookup_group key k (done ++ rows).
Proof.
  revert done gs. induction rows as [| r rows IH]; simpl; intros done gs S A.
  - rewrite app_nil_r. auto.
  - replace (done ++ r :: rows) with ((done ++ [r]) ++ rows)
      by (rewrite <- app_assoc; reflexivity).
    apply IH; [apply add_to_group_sorted; assumption |].
    intro k. rewrite assoc_add_to_group by assumption.
    unfold lookup_group, group_of in *. rewrite filter_app. simpl.
    rewrite (String.eqb_sym k (key r)).
    destruct (String.eqb_spec (key r) k) as [E | N].
    + rewrite E, A. destruct (filter (fun r0 => key r0 =? k) done); reflexivity.
    + rewrite A, app_nil_r. reflexivity.
Qed.

Lemma group_rows_sorted (rows : list R) : keys_sorted (group_rows key rows).
Proof.
  apply (group_rows_inv rows [] []); [constructor | reflexivity].
Qed.

Lemma group_rows_assoc (rows : list R) k :
  assoc k (group_rows key rows) = lookup_group key k rows.
Proof.
  apply (group_rows_inv rows [] []); [constructor | reflexivity].
Qed.

(** A group of the result is the non-empty selection of its key. *)
Lemma group_rows_In (rows : list R) k g :
  In (k, g) (group_rows key rows) <-> g = group_of key k rows /\ g <> [].
Proof.
  rewrite (assoc_sorted_iff _ _ _ (group_rows_sorted rows)), group_rows_assoc.
  unfold lookup_group. destruct (group_of key k rows) as [| r g'].
  - split; [discriminate | intros [-> N]; contradiction].
  - split; [intros [= <-]; split; [reflexivity | discriminate] | intros [-> _]; reflexivity].
Qed.

Lemma group_rows_key_iff (rows : list R) k :
  In k (map fst (group_rows key rows)) <-> exists r, In r rows /\ key r = k.
Proof.
  rewrite in_map_iff. split.
  - intros [[k' g] [E Hin]]. simpl in E. subst k'.
    apply group_rows_In in Hin. destruct Hin as [-> N].
    unfold group_of in N. destruct (filter (fun r => key r =? k) rows) as [| r l] eqn:F;
      [contradiction |].
    assert (Hr : In r (filter (fun r => key r =? k) rows)) by (rewrite F; left; reflexivity).
    apply filter_In in Hr. destruct Hr as [Hr Hk]. apply String.eqb_eq in Hk. eauto.
  - intros [r [Hr Hk]]. exists (k, group_of key k rows). split; [reflexivity |].
    apply group_rows_In. split; [reflexivity |].
    assert (Hin : In r (group_of key k rows)).
    { apply filter_In. split; [assumption | apply String.eqb_eq; assumption]. }
    intro E. rewrite E in Hin. exact Hin.
Qed.

(** The grouped table, from its keys. *)
Lemma group_rows_shape (rows : list R) :
  group_rows key rows
  = map (fun k => (k, group_of key k rows)) (map fst (group_rows key rows)).
Proof.
  rewrite map_map. rewrite <- (map_id (group_rows key rows)) at 1.
  apply map_ext_in. intros [k g] Hin. apply group_rows_In in Hin.
  destruct Hin as [-> _]. reflexivity.
Qed.
End GroupFacts.

(** ** Groups of the table *)

Lemma combine_seq_snd {R} (l : list R) (a : nat) :
  map snd (combine (seq a (length l)) l) = l.
Proof.
  revert a. induction l as [| x l IH]; simpl; intro a; [reflexivity |].
  rewrite IH. reflexivity.
Qed.

Lemma combine_seq_nth {R} (l : list R) (a i : nat) (x : R) :
  In (i, x) (combine (seq a (length l)) l) -> a <= i /\ nth_error l (i - a) = Some x.
Proof.
  revert a. induction l as [| y l IH]; simpl; intros a H; [contradiction |].
  destruct H as [[= <- <-] | H].
  - rewrite Nat.sub_diag. auto.
  - apply IH in H. destruct H as [Hle Hn].
    split; [lia |]. replace (i - a) with (S (i - S a)) by lia. exact Hn.
Qed.

Lemma indexed_snd {R} (df : list R) : map snd (indexed df) = df.
Proof. apply combine_seq_snd. Qed.

(** The label of a row of the table finds that row. *)
Lemma indexed_loc (df : list Df.row) (i : nat) (r : Df.row) :
  In (i, r) (indexed df) -> loc df i = Some r.
Proof.
  intro H. apply combine_seq_nth in H. destruct H as [_ H].
  rewrite Nat.sub_0_r in H. exact H.
Qed.

Lemma filter_snd {X Y} (p : Y -> bool) (l : list (X * Y)) :
  map snd (filter (fun xy => p (snd xy)) l) = filter p (map snd l).
Proof.
  induction l as [| [x y] l IH]; simpl; [reflexivity |].
  destruct (p y); simpl; rewrite IH; reflexivity.
Qed.

Section FrameGroups.
Variable col : Df.row -> string.
Variable df : list Df.row.

Lemma group_at_rows k : map snd (group_at col df k) = rows_in col k df.
Proof.
  unfold group_at, group_of, rows_in.
  rewrite (filter_snd (fun r => col r =? k)), indexed_snd. reflexivity.
Qed.

Lemma group_at_loc k i r : In (i, r) (group_at col df k) -> loc df i = Some r.
Proof.
  unfold group_at, group_of. intro H. apply filter_In in H.
  apply indexed_loc. tauto.
Qed.

Lemma group_at_nil k : group_at col df k = [] <-> rows_in col k df = [].
Proof.
  rewrite <- group_at_rows. destruct (group_at col df k); simpl; split; congruence.
Qed.

Lemma groupby_In k g :
  In (k, g) (groupby col df) <-> g = group_at col df k /\ rows_in col k df <> [].
Proof.
  unfold groupby. rewrite group_rows_In. fold (group_at col df k).
  split; intros [-> N]; (split; [reflexivity |]);
    intro E; apply N; apply group_at_nil; exact E.
Qed.

Lemma groupby_keys_sorted : StronglySorted str_lt (map fst (groupby col df)).
Proof. apply group_rows_sorted. Qed.

Lemma groupby_key_iff k :
  In k (map fst (groupby col df)) <-> exists r, In r df /\ col r = k.
Proof.
  unfold groupby. rewrite group_rows_key_iff. split.
  - intros [[i r] [Hin Hk]]. exists r. split; [| exact Hk].
    rewrite <- (indexed_snd df). apply in_map_iff. exists (i, r). auto.
  - intros [r [Hin Hk]]. rewrite <- (indexed_snd df) in Hin.
    apply in_map_iff in Hin. destruct Hin as [[i r'] [E Hin]]. simpl in E. subst r'.
    exists (i, r). auto.
Qed.

Lemma groupby_shape :
  groupby col df = map (fun k => (k, group_at col df k)) (map fst (groupby col df)).
Proof. apply group_rows_shape. Qed.

Lemma groupby_assoc k :
  assoc k (groupby col df)
  = match rows_in col k df with [] => None | _ => Some (group_at col df k) end.
Proof.
  unfold groupby. rewrite group_rows_assoc. unfold lookup_group. fold (group_at col df k).
  destruct (group_at col df k) eqn:E.
  - apply group_at_nil in E. rewrite E. reflexivity.
  - destruct (rows_in col k df) eqn:E'; [| reflexivity].
    apply group_at_nil in E'. congruence.
Qed.
End FrameGroups.

(** The reducers on a group, from its rows. *)
Lemma values_column {V} (c : Df.row -> V) (g : list (nat * Df.row)) :
  values (column c g) = map c (map snd g).
Proof. unfold values, column. rewrite !map_map. reflexivity. Qed.

Lemma count_column {V} (c : Df.row -> V) (g : list (nat * Df.row)) :
  count (column c g) = length (map snd g).
Proof. unfold count, column. rewrite !length_map. reflexivity. Qed.

Lemma sum_column (c : Df.row -> Q) (g : list (nat * Df.row)) :
  sum (column c g) = Qsum (map c (map snd g)).
Proof. unfold sum. rewrite values_column. reflexivity. Qed.

Lemma mean_column (c : Df.row -> Q) (g : list (nat * Df.row)) :
  mean (column c g)
  = (Qsum (map c (map snd g)) / Q_of_nat (length (map snd g)))%Q.
Proof. unfold mean. rewrite sum_column, count_column. reflexivity. Qed.

(** ** Sorting *)

Section SortFacts.
Context {R : Type} (le : R -> R -> bool).

Lemma insert_sorted_perm x l : Permutation (insert_sorted le x l) (x :: l).
Proof.
  induction l as [| y l IH]; simpl; [reflexivity |].
  destruct (le x y); [reflexivity |].
  rewrite IH. apply perm_swap.
Qed.

Lemma sort_by_perm l : Permutation (sort_by le l) l.
Proof.
  induction l as [| x l IH]; simpl; [reflexivity |].
  rewrite insert_sorted_perm. constructor. exact IH.
Qed.

Lemma sort_by_In l x : In x (sort_by le l) <-> In x l.
Proof.
  split; apply Permutation_in; [| symmetry]; apply sort_by_perm.
Qed.

Lemma sort_by_length l : length (sort_by le l) = length l.
Proof. apply Permutation_length, sort_by_perm. Qed.

(** Sorting a table that is in order already changes nothing. *)
Lemma sort_by_sorted_id l : StronglySorted (le_prop le) l -> sort_by le l = l.
Proof.
  induction 1 as [| x l S IH F]; simpl; [reflexivity |].
  rewrite IH. destruct l as [| y l]; simpl; [reflexivity |].
  inversion F as [| ? ? Hxy _]; subst. rewrite Hxy. reflexivity.
Qed.

Hypothesis le_total : forall a b, le a b = false -> le b a = true.
Hypothesis le_trans : forall a b c, le a b = true -> le b c = true -> le a c = true.

Lemma insert_sorted_sorted x l :
  StronglySorted (le_prop le) l -> StronglySorted (le_prop le) (insert_sorted le x l).
Proof.
  induction 1 as [| y l S IH F]; simpl.
  - repeat constructor.
  - destruct (le x y) eqn:E.
    + constructor; [constructor; assumption |].
      constructor; [exact E |].
      eapply Forall_impl; [| exact F]. intros a Ha. exact (le_trans _ _ _ E Ha).
    + constructor; [exact IH |].
      apply Forall_forall. intros a Ha.
      apply (Permutation_in _ (insert_sorted_perm x l)) in Ha.
      destruct Ha as [<- | Ha]; [exact (le_total _ _ E) |].
      rewrite Forall_forall in F. auto.
Qed.

Lemma sort_by_sorted l : StronglySorted (le_prop le) (sort_by le l).
Proof.
  induction l as [| x l IH]; simpl; [constructor | apply insert_sorted_sorted, IH].
Qed.
End SortFacts.

Section Stability.
Context {R : Type} (le : R -> R -> bool) (p : R -> bool).

(** [p] selects rows that the order does not tell apart. *)
Hypothesis p_ties : forall a b, p a = true -> p b = true -> le a b = true.

Lemma filter_insert_sorted x l :
  filter p (insert_sorted le x l) = filter p (x :: l).
Proof.
  induction l as [| y l IH]; simpl; [reflexivity |].
  destruct (le x y) eqn:E; [reflexivity |].
  simpl. rewrite IH. simpl.
  destruct (p x) eqn:Px; [| reflexivity].
  destruct (p y) eqn:Py; [| reflexivity].
  rewrite (p_ties _ _ Px Py) in E. discriminate.
Qed.

(** Rows that tie come out of the sort in the order they went in. *)
Lemma sort_by_stable l : filter p (sort_by le l) = filter p l.
Proof.
  induction l as [| x l IH]; simpl; [reflexivity |].
  rewrite filter_insert_sorted. simpl. rewrite IH. reflexivity.
Qed.
End Stability.

(** ** The monthly table *)

Lemma str_lt_le (a b : string) : str_lt a b -> str_le a b = true.
Proof. unfold str_lt, String_as_OT.lt, str_le. intros ->. reflexivity. Qed.

Lemma sorted_keys_le {X} (f : X -> string) (l : list X) :
  StronglySorted str_lt (map f l) ->
  StronglySorted (le_prop (fun a b => str_le (f a) (f b))) l.
Proof.
  induction l as [| x l IH]; simpl; intro S; [constructor |].
  inversion S as [| ? ? S' F]; subst. constructor; [auto |].
  rewrite Forall_map in F. eapply Forall_impl; [| exact F].
  intros a Ha. apply str_lt_le. exact Ha.
Qed.

Lemma sorted_keys_NoDup (ks : list string) : StronglySorted str_lt ks -> NoDup ks.
Proof.
  induction 1 as [| k ks S IH F]; constructor; [| exact IH].
  apply (sorted_head_not_in k ks k F). auto.
Qed.

(** The sort of line 80 finds the groups in order already; each row carries
    the reducers of the rows of its month. *)
Lemma monthly_rows (df : list Df.row) :
  monthly df = map (monthly_row df) (map fst (groupby Df.order_month df)).
Proof.
  unfold monthly, sort_values_str.
  rewrite sort_by_sorted_id.
  - rewrite (groupby_shape Df.order_month df) at 1. rewrite map_map.
    apply map_ext. intro k. unfold monthly_row. cbn [fst snd].
    rewrite count_column, sum_column, group_at_rows. reflexivity.
  - apply sorted_keys_le. rewrite map_map. cbn [Monthly.order_month].
    rewrite <- (map_map fst (fun k => k)), map_id. apply groupby_keys_sorted.
Qed.

Lemma monthly_keys (df : list Df.row) :
  map Monthly.order_month (monthly df) = map fst (groupby Df.order_month df).
Proof.
  rewrite monthly_rows, map_map. cbn. apply map_id.
Qed.

Lemma period_M_str_same (t1 t2 : Timestamp) :
  year t1 = year t2 -> month t1 = month t2 -> period_M_str t1 = period_M_str t2.
Proof. unfold period_M_str. intros -> ->. reflexivity. Qed.

(** C8: two orders of one calendar month make a single row of [monthly]
    with [total_orders = 2] and [total_gmv] the sum of their order values;
    in general [monthly] has one row per month that occurs, no month twice,
    with the number of orders of the month and the sum of their values. *)
Theorem monthly_one_row_per_month :
  (forall o1 o2 : Order.t,
     year (Order.order_date_and_time o1) = year (Order.order_date_and_time o2) ->
     month (Order.order_date_and_time o1) = month (Order.order_date_and_time o2) ->
     exists row,
       monthly (derive [o1; o2]) = [row]
       /\ Monthly.order_month row = period_M_str (Order.order_date_and_time o1)
       /\ Monthly.total_orders row = 2
       /\ (Monthly.total_gmv row == Order.order_value o1 + Order.order_value o2)%Q)
  /\ (forall orders : list Order.t,
        let df := derive orders in
        NoDup (map Monthly.order_month (monthly df))
        /\ (forall m, In m (map Monthly.order_month (monthly df))
                      <-> exists r, In r df /\ Df.order_month r = m)
        /\ Forall (fun row =>
             let rows := rows_in Df.order_month (Monthly.order_month row) df in
             Monthly.total_orders row = length rows
             /\ Monthly.total_gmv row = Qsum (map Df.order_value rows))
           (monthly df)).
Proof.
  split.
  - intros o1 o2 Hy Hm.
    pose proof (period_M_str_same _ _ Hy Hm) as E.
    eexists. split; [| split; [| split]].
    + unfold monthly, sort_values_str, groupby, group_rows, indexed, derive.
      cbn [map length seq combine fold_left add_to_group snd derive_row Df.order_month].
      rewrite <- E, compare_refl. cbn [map sort_by fold_right insert_sorted app]. reflexivity.
    + reflexivity.
    + reflexivity.
    + cbn. unfold Df.order_value. cbn. ring.
  - intros orders df. split; [| split].
    + rewrite monthly_keys. apply sorted_keys_NoDup, groupby_keys_sorted.
    + intro m. rewrite monthly_keys. apply groupby_key_iff.
    + rewrite monthly_rows. apply Forall_forall. intros row Hrow.
      apply in_map_iff in Hrow. destruct Hrow as [k [<- _]]. cbn. auto.
Qed.

Lemma monthly_one_row_per_month_witness :
  exists row,
    monthly (derive [order_A; order_B]) = [row]
    /\ Monthly.order_month row = "2024-01"
    /\ Monthly.total_orders row = 2
    /\ (Monthly.total_gmv row == 40 + 12)%Q.
Proof.
  exact (proj1 monthly_one_row_per_month order_A order_B eq_refl eq_refl).
Defined.

(** ** Tables over a fixed list of bands *)

Lemma has_band_iff col df b :
  has_band col df b = true <-> exists r, In r df /\ col r = b.
Proof.
  unfold has_band. rewrite existsb_exists.
  split; intros [r [H1 H2]]; exists r; (split; [assumption |]);
    apply String.eqb_eq; assumption.
Qed.

Lemma has_band_rows col df b :
  has_band col df b = negb (Nat.eqb (length (rows_in col b df)) 0).
Proof.
  unfold has_band, rows_in. induction df as [| r df IH]; simpl; [reflexivity |].
  destruct (col r =? b); simpl; [reflexivity | exact IH].
Qed.

Lemma sorted_filter {X} (lt : X -> X -> Prop) (p : X -> bool) (l : list X) :
  StronglySorted lt l -> StronglySorted lt (filter p l).
Proof.
  induction 1 as [| x l S IH F]; simpl; [constructor |].
  destruct (p x); [| exact IH].
  constructor; [exact IH |].
  apply Forall_forall. intros a Ha. apply filter_In in Ha.
  rewrite Forall_forall in F. apply F. tauto.
Qed.

(** Two sorted lists of keys with the same members are the same list. *)
Lemma sorted_same_members (l1 l2 : list string) :
  StronglySorted str_lt l1 -> StronglySorted str_lt l2 ->
  (forall x, In x l1 <-> In x l2) -> l1 = l2.
Proof.
  intro S1. revert l2.
  induction S1 as [| x1 l1 S1 IH F1]; intros l2 S2 M.
  - destruct l2 as [| x2 l2]; [reflexivity |].
    exfalso. apply (M x2). left. reflexivity.
  - destruct S2 as [| x2 l2 S2 F2].
    + exfalso. apply (M x1). left. reflexivity.
    + assert (E : x1 = x2).
      { destruct (proj1 (M x1) (or_introl eq_refl)) as [E | H2]; [auto |].
        destruct (proj2 (M x2) (or_introl eq_refl)) as [E | H1]; [auto |].
        rewrite Forall_forall in F1, F2.
        exfalso. apply (StrictOrder_Irreflexive x1).
        exact (str_lt_trans _ _ _ (F1 _ H1) (F2 _ H2)). }
      subst x2. f_equal. apply IH; [exact S2 |].
      intro x. split; intro H.
      * destruct (proj1 (M x) (or_intror H)) as [<- | H']; [| exact H'].
        exfalso. exact (sorted_head_not_in x1 l1 x1 F1 (or_introl eq_refl) H).
      * destruct (proj2 (M x) (or_intror H)) as [<- | H']; [| exact H'].
        exfalso. exact (sorted_head_not_in x1 l2 x1 F2 (or_introl eq_refl) H).
Qed.

(** The keys of a grouping whose column only holds labels of a sorted list
    [universe] are the labels that occur, in that order. *)
Lemma groupby_keys_within col df (universe : list string) :
  StronglySorted str_lt universe ->
  (forall r, In r df -> In (col r) universe) ->
  map fst (groupby col df) = filter (has_band col df) universe.
Proof.
  intros SU Hin. apply sorted_same_members.
  - apply groupby_keys_sorted.
  - apply sorted_filter, SU.
  - intro k. rewrite groupby_key_iff, filter_In, has_band_iff.
    split; [| tauto]. intros [r [Hr <-]]. split; [auto | eauto].
Qed.

Lemma insert_sorted_map {X Y} (f : X -> Y) (le : Y -> Y -> bool) x l :
  insert_sorted le (f x) (map f l)
  = map f (insert_sorted (fun a b => le (f a) (f b)) x l).
Proof.
  induction l as [| y l IH]; simpl; [reflexivity |].
  destruct (le (f x) (f y)); simpl; [reflexivity | rewrite IH; reflexivity].
Qed.

Lemma sort_by_map {X Y} (f : X -> Y) (le : Y -> Y -> bool) l :
  sort_by le (map f l) = map f (sort_by (fun a b => le (f a) (f b)) l).
Proof.
  induction l as [| x l IH]; simpl; [reflexivity |].
  rewrite IH. apply insert_sorted_map.
Qed.

Lemma discount_bands_sorted_ok : StronglySorted str_lt discount_bands_sorted.
Proof. repeat constructor. Qed.

Lemma derive_discount_band_in (orders : list Order.t) (r : Df.row) :
  In r (derive orders) -> In (Df.discount_band r) discount_bands_sorted.
Proof.
  intro H. apply derive_In in H. destruct H as [o [_ ->]]. cbn [Df.discount_band derive_row].
  pose proof (discount_band_in (Order.discounts_and_offers o)) as Hin.
  unfold discount_bands in Hin. unfold discount_bands_sorted. simpl in *. tauto.
Qed.

(** The rows of [disc_impact] are those of the bands that occur, in the
    order of [order_map]. *)
Lemma disc_impact_bands (orders : list Order.t) :
  map Disc.discount_band (disc_impact (derive orders))
  = filter (has_band Df.discount_band (derive orders)) discount_bands.
Proof.
  unfold disc_impact, sort_values_opt.
  rewrite sort_by_map, map_map. cbn [Disc.discount_band Disc.sort].
  rewrite <- (map_map fst (fun k => k)), map_id.
  rewrite <- (sort_by_map fst (fun a b => opt_le (order_map a) (order_map b))).
  rewrite (groupby_keys_within _ _ discount_bands_sorted discount_bands_sorted_ok
             (derive_discount_band_in orders)).
  unfold discount_bands_sorted, discount_bands. cbn [filter].
  destruct (has_band Df.discount_band (derive orders) "High (15+)");
    destruct (has_band Df.discount_band (derive orders) "Low (1-5)");
    destruct (has_band Df.discount_band (derive orders) "Mid (6-15)");
    destruct (has_band Df.discount_band (derive orders) "No Discount");
    reflexivity.
Qed.

(** ** The order-band table *)

Lemma agg_each_total {X Y} (f : X -> option Y) (g : X -> Y) (l : list X) :
  (forall x, In x l -> f x = Some (g x)) -> agg_each f l = Some (map g l).
Proof.
  induction l as [| x l IH]; simpl; intro H; [reflexivity |].
  rewrite (H x) by auto. simpl. rewrite IH by auto. reflexivity.
Qed.

(** Reading a column at the labels of a group never fails. *)
Lemma loc_col_group {V W} (df : list Df.row) (c : Df.row -> V) (c' : Df.row -> W)
      (g : list (nat * Df.row)) :
  (forall i r, In (i, r) g -> loc df i = Some r) ->
  loc_col df c (map fst (column c' g)) = Some (column c g).
Proof.
  unfold loc_col, column. rewrite map_map. cbn [fst].
  induction g as [| [i r] g IH]; simpl; intro H; [reflexivity |].
  rewrite (H i r) by auto. simpl. rewrite IH by auto. reflexivity.
Qed.

Lemma series_div_column (a b : Df.row -> Q) (g : list (nat * Df.row)) :
  series_div (column a g) (column b g) = column (fun r => float_div (a r) (b r)) g.
Proof.
  unfold series_div, column. induction g as [| [i r] g IH]; simpl; [reflexivity |].
  f_equal. exact IH.
Qed.

Lemma band_agg_total (df : list Df.row) (kg : string * list (nat * Df.row)) :
  In kg (groupby Df.order_band df) -> band_agg df kg = Some (band_agg_of kg).
Proof.
  destruct kg as [k g]. intro H. apply groupby_In in H. destruct H as [-> _].
  unfold band_agg, delivery_fee_pct_of. cbn [fst snd].
  rewrite (loc_col_group df Df.order_value Df.delivery_fee)
    by (apply group_at_loc).
  cbn [bind]. rewrite series_div_column. reflexivity.
Qed.

Lemma assoc_map_values {V W} (h : string -> V -> W) (t : list (string * V)) (k : string) :
  assoc k (map (fun kv => (fst kv, h (fst kv) (snd kv))) t) = option_map (h k) (assoc k t).
Proof.
  induction t as [| [k1 v1] t IH]; simpl; [reflexivity |].
  destruct (String.eqb_spec k k1) as [-> | _]; [reflexivity | exact IH].
Qed.

(** [band_data] raises nothing and has the row of each label of
    [band_order], in that order. *)
Lemma band_data_rows (df : list Df.row) :
  band_data df = Some (map (band_data_row df) band_order).
Proof.
  unfold band_data.
  rewrite (agg_each_total _ band_agg_of) by (apply band_agg_total).
  cbn [bind]. f_equal. unfold reindex. rewrite map_map.
  apply map_ext. intro b. unfold band_row, band_data_row. cbn [fst snd].
  unfold band_agg_of.
  rewrite (assoc_map_values (fun k g => {|
     Band.agg_delivery_fee_pct := times_100 (nanmean (column fee_share g));
     Band.agg_avg_margin := mean (column Df.contribution_margin g);
     Band.agg_count := count (column Df.order_id g) |})).
  rewrite groupby_assoc, has_band_rows.
  destruct (rows_in Df.order_band b df) as [| r rows] eqn:E; [reflexivity |].
  cbn [option_map length Nat.eqb negb Band.agg_delivery_fee_pct Band.agg_avg_margin Band.agg_count].
  unfold nanmean.
  rewrite mean_column, count_column, values_column, group_at_rows, E.
  unfold mean_in. rewrite E. reflexivity.
Qed.

Lemma finite_values_cons (x : Float64) (l : list Float64) :
  finite_values (x :: l)
  = match x with Fin q => q :: finite_values l | _ => finite_values l end.
Proof. destruct x; reflexivity. Qed.

(** The mean of cells that are all numbers is the mean of the numbers. *)
Lemma nanmean_values_finite (l : list Q) :
  l <> [] -> nanmean_values (map Fin l) = Fin (Qsum l / Q_of_nat (length l)).
Proof.
  intro N. unfold nanmean_values.
  assert (K : filter (fun x => negb (is_nan x)) (map Fin l) = map Fin l).
  { clear N. induction l as [| q l IH]; cbn; [reflexivity | rewrite IH; reflexivity]. }
  assert (P : existsb is_pinf (map Fin l) = false)
    by (clear; induction l as [| q l IH]; cbn; [reflexivity | exact IH]).
  assert (M : existsb is_ninf (map Fin l) = false)
    by (clear; induction l as [| q l IH]; cbn; [reflexivity | exact IH]).
  assert (F : finite_values (map Fin l) = l).
  { clear. induction l as [| q l IH]; [reflexivity |].
    cbn [map]. rewrite finite_values_cons, IH. reflexivity. }
  rewrite K, P, M, F, length_map.
  destruct l as [| q l]; [contradiction | reflexivity].
Qed.


(** A mean that is a number was taken over numbers and NaN only. *)
Lemma nanmean_values_number (l : list Float64) (q : Q) :
  nanmean_values l = Fin q ->
  Forall (fun x => x <> PInf /\ x <> NInf) l
  /\ q = (Qsum (finite_values l) / Q_of_nat (length (finite_values l)))%Q.
Proof.
  unfold nanmean_values.
  assert (K : forall l, existsb is_pinf l = false -> existsb is_ninf l = false ->
              Forall (fun x => x <> PInf /\ x <> NInf) l).
  { clear. induction l as [| x l IH]; cbn; intros P M; [constructor |].
    apply orb_false_iff in P, M. destruct P as [P1 P2], M as [M1 M2].
    constructor; [| apply IH; assumption].
    split; intros ->; discriminate. }
  assert (E1 : existsb is_pinf (filter (fun x => negb (is_nan x)) l) = existsb is_pinf l).
  { clear. induction l as [| x l IH]; [reflexivity |]. destruct x; cbn; rewrite ?IH; reflexivity. }
  assert (E2 : existsb is_ninf (filter (fun x => negb (is_nan x)) l) = existsb is_ninf l).
  { clear. induction l as [| x l IH]; [reflexivity |]. destruct x; cbn; rewrite ?IH; reflexivity. }
  assert (E3 : finite_values (filter (fun x => negb (is_nan x)) l) = finite_values l).
  { clear. induction l as [| x l IH]; [reflexivity |].
    destruct x; cbn [filter is_nan negb]; rewrite ?finite_values_cons, ?IH; reflexivity. }
  assert (E4 : existsb is_pinf l = false -> existsb is_ninf l = false ->
               length (filter (fun x => negb (is_nan x)) l) = length (finite_values l)).
  { clear. induction l as [| x l IH]; [reflexivity |].
    destruct x; cbn [filter is_nan negb existsb is_pinf is_ninf orb length];
      rewrite ?finite_values_cons; intros P M; try discriminate;
      cbn [length]; rewrite ?IH by assumption; reflexivity. }
  rewrite <- E3.
  destruct (filter (fun x => negb (is_nan x)) l) as [| x kept] eqn:E; [discriminate |].
  rewrite <- E in *. rewrite E1, E2.
  destruct (existsb is_pinf l) eqn:P, (existsb is_ninf l) eqn:M; try discriminate.
  intros [= <-]. split; [apply K; assumption |].
  rewrite E3, E4 by reflexivity. reflexivity.
Qed.

(** C3, as amended: the order-band table always has the four rows of
    [band_order] in that order, a band without orders having all its
    reducers missing and a band with orders its count and its average
    margin; the discount-band table has a row for each band that occurs
    among the orders and no other, in the order No Discount, Low, Mid,
    High. *)
Theorem band_tables_rows (orders : list Order.t) :
  (exists t,
      band_data (derive orders) = Some t
      /\ map Band.order_band t = band_order
      /\ length t = 4
      /\ Forall (fun row =>
           let rows := rows_in Df.order_band (Band.order_band row) (derive orders) in
           match rows with
           | [] => Band.delivery_fee_pct row = NaN /\ Band.avg_margin row = None
                   /\ Band.count row = None
           | _ => Band.avg_margin row <> None /\ Band.count row = Some (length rows)
           end) t)
  /\ map Disc.discount_band (disc_impact (derive orders))
     = filter (has_band Df.discount_band (derive orders)) discount_bands.
Proof.
  split; [| apply disc_impact_bands].
  exists (map (band_data_row (derive orders)) band_order).
  split; [apply band_data_rows |].
  split; [| split; [reflexivity |]].
  - rewrite map_map. unfold band_data_row.
    rewrite <- (map_id band_order) at 2. apply map_ext.
    intro b. destruct (has_band Df.order_band (derive orders) b); reflexivity.
  - apply Forall_forall. intros row Hrow.
    apply in_map_iff in Hrow. destruct Hrow as [b [<- _]].
    unfold band_data_row. rewrite has_band_rows.
    destruct (rows_in Df.order_band b (derive orders)) as [| r rows] eqn:E;
      cbn [length Nat.eqb negb Band.order_band]; rewrite E; cbn.
    + auto.
    + repeat split; discriminate.
Qed.

(** C3, the claim as worded: with orders of one discount band only, the
    discount-band table has one row, not four. *)
Lemma disc_impact_one_band :
  map Disc.discount_band (disc_impact (derive [order_A])) = ["No Discount"]
  /\ length (disc_impact (derive [order_A])) <> 4.
Proof. split; [reflexivity | discriminate]. Qed.

(** ** The refund table *)

Lemma refunded_py_gt (r : Df.row) :
  py_gt (Df.refunds_chargebacks r) (lit 0) = refunded r.
Proof.
  unfold refunded. change (@lit Q _ 0) with 0%Q.
  destruct (Qlt_le_dec 0 (Df.refunds_chargebacks r)) as [L | G].
  - apply py_gt_Q. exact L.
  - apply py_lt_Q_false. exact G.
Qed.

Lemma count_positive_column (g : list (nat * Df.row)) :
  count_positive (column Df.refunds_chargebacks g)
  = length (filter refunded (map snd g)).
Proof.
  unfold count_positive. rewrite values_column.
  induction (map snd g) as [| r l IH]; cbn [map filter length]; [reflexivity |].
  rewrite refunded_py_gt. destruct (refunded r); cbn [length]; rewrite IH; reflexivity.
Qed.

Lemma rest_refund_rows (df : list Df.row) :
  rest_refund df = map (rest_refund_row df) (map fst (groupby Df.restaurant_id df)).
Proof.
  unfold rest_refund.
  rewrite (groupby_shape Df.restaurant_id df) at 1. rewrite map_map.
  apply map_ext. intro k. unfold rest_refund_row, refund_rate_spec. cbn [fst snd].
  rewrite count_column, count_positive_column, sum_column, group_at_rows. reflexivity.
Qed.

Lemma rest_refund_keys (df : list Df.row) :
  map Refund.restaurant_id (rest_refund df) = map fst (groupby Df.restaurant_id df).
Proof. rewrite rest_refund_rows, map_map. cbn. apply map_id. Qed.


(** ** The ranking of line 222 *)

Lemma rate_ge_total (a b : Refund.row) : rate_ge a b = false -> rate_ge b a = true.
Proof.
  unfold rate_ge. intro H. apply Qle_bool_iff.
  apply Qlt_le_weak, py_le_Q_false. exact H.
Qed.

Lemma rate_ge_trans (a b c : Refund.row) :
  rate_ge a b = true -> rate_ge b c = true -> rate_ge a c = true.
Proof.
  unfold rate_ge. rewrite !Qle_bool_iff. intros H1 H2. exact (Qle_trans _ _ _ H2 H1).
Qed.

Lemma rate_ge_ties (q : Q) (a b : Refund.row) :
  Qeq_bool (Refund.refund_rate a) q = true ->
  Qeq_bool (Refund.refund_rate b) q = true -> rate_ge a b = true.
Proof.
  unfold rate_ge. rewrite !Qeq_bool_iff, Qle_bool_iff. intros -> ->. apply Qle_refl.
Qed.

(** What [top_of] keeps and what it leaves, for any grouped table. *)
Lemma top_of_ranking (t : list Refund.row) :
  exists rest,
    Permutation (top_of t ++ rest) (qualified t)
    /\ StronglySorted (fun a b => (Refund.refund_rate b <= Refund.refund_rate a)%Q)
         (top_of t ++ rest)
    /\ (forall q,
          filter (fun r => Qeq_bool (Refund.refund_rate r) q) (top_of t ++ rest)
          = filter (fun r => Qeq_bool (Refund.refund_rate r) q) (qualified t))
    /\ length (top_of t) = Nat.min 10 (length (qualified t)).
Proof.
  exists (skipn 10 (sort_by rate_ge (qualified t))).
  unfold top_of, nlargest. fold (qualified t). fold rate_ge.
  rewrite firstn_skipn. split; [| split; [| split]].
  - apply sort_by_perm.
  - pose proof (sort_by_sorted rate_ge rate_ge_total rate_ge_trans (qualified t)) as S.
    induction S as [| x l S IH F]; constructor; [exact IH |].
    eapply Forall_impl; [| exact F]. intros a Ha. apply Qle_bool_iff. exact Ha.
  - intro q. apply sort_by_stable. apply rate_ge_ties.
  - rewrite length_firstn, sort_by_length. reflexivity.
Qed.

Lemma In_firstn {X} (n : nat) (l : list X) (x : X) : In x (firstn n l) -> In x l.
Proof.
  intro H. rewrite <- (firstn_skipn n l). apply in_or_app. left. exact H.
Qed.

Lemma top_of_In (t : list Refund.row) (r : Refund.row) :
  In r (top_of t) -> In r t /\ 5 <= Refund.total_orders r.
Proof.
  unfold top_of, nlargest. intro H. apply In_firstn in H.
  apply sort_by_In in H. apply filter_In in H. destruct H as [H1 H2].
  split; [exact H1 | apply Nat.leb_le; exact H2].
Qed.

(** C6, as amended: [top_refund] holds groups of five orders or more only;
    together with the groups it leaves out it is the list of all those
    groups in descending order of refund rate, and it has the first ten of
    that list.  Groups of equal rate come in the order of the grouped
    table, which for restaurant ids read as text is the ascending order of
    the ids, whatever the order of the lines of the file.  With R1 (10
    orders, 30%), R2 (4 orders, 100%) and R3 (6 orders, 20%), R2 is left
    out and R1 comes before R3. *)
Theorem top_refund_ranking :
  (forall orders : list Order.t,
     text_ids orders ->
     let table := rest_refund (derive orders) in
     let top := top_refund (derive orders) in
     (exists rest,
        Permutation (top ++ rest) (qualified table)
        /\ StronglySorted (fun a b => (Refund.refund_rate b <= Refund.refund_rate a)%Q)
             (top ++ rest)
        /\ (forall q,
              filter (fun r => Qeq_bool (Refund.refund_rate r) q) (top ++ rest)
              = filter (fun r => Qeq_bool (Refund.refund_rate r) q) (qualified table))
        /\ length top = Nat.min 10 (length (qualified table)))
     /\ Forall (fun r => In r table /\ 5 <= Refund.total_orders r) top
     /\ StronglySorted str_lt (map Refund.restaurant_id table))
  /\ (forall r1 r2 r3 : Refund.row,
        Refund.total_orders r1 = 10 -> (Refund.refund_rate r1 == 30)%Q ->
        Refund.total_orders r2 = 4 -> (Refund.refund_rate r2 == 100)%Q ->
        Refund.total_orders r3 = 6 -> (Refund.refund_rate r3 == 20)%Q ->
        top_of [r1; r2; r3] = [r1; r3] /\ top_of [r3; r2; r1] = [r1; r3]).
Proof.
  split.
  - intros orders _ table top. split; [apply top_of_ranking | split].
    + apply Forall_forall. intros r Hr. apply top_of_In. exact Hr.
    + unfold table. rewrite rest_refund_keys. apply groupby_keys_sorted.
  - intros r1 r2 r3 T1 Q1 T2 Q2 T3 Q3.
    assert (G13 : rate_ge r1 r3 = true).
    { unfold rate_ge. apply Qle_bool_iff. rewrite Q1, Q3. discriminate. }
    assert (G31 : rate_ge r3 r1 = false).
    { unfold rate_ge. apply py_le_Q_false. rewrite Q1, Q3. reflexivity. }
    unfold top_of, nlargest. fold rate_ge.
    cbn [filter]. rewrite T1, T2, T3.
    cbn [Nat.leb sort_by fold_right insert_sorted].
    rewrite G13, G31. split; reflexivity.
Qed.

(** C6, the claim as worded: the lines of [orders_ties] meet B7 before A3,
    both have five orders and a refund rate of 20, and the ranking has A3
    before B7. *)
Lemma ties_not_in_encounter_order :
  first_met (map Order.restaurant_id orders_ties) = ["B7"; "A3"]
  /\ map (fun r => (Refund.restaurant_id r, Refund.total_orders r, Refund.refund_orders r))
       (top_refund (derive orders_ties))
     = [("A3", 5, 1); ("B7", 5, 1)]
  /\ Forall (fun r => (Refund.refund_rate r == 20)%Q) (top_refund (derive orders_ties)).
Proof.
  split; [reflexivity | split; [reflexivity |]].
  repeat apply Forall_cons; [reflexivity | reflexivity | apply Forall_nil].
Qed.

(** ** Running the script again *)

Section Files.
Context {V : Type}.
Implicit Types (files : list (string * V)) (l : list (string * V)).

Lemma assoc_write_file name v files n :
  assoc n (write_file name v files)
  = if n =? name then Some v else assoc n files.
Proof.
  induction files as [| [n1 v1] files IH]; simpl.
  - destruct (n =? name); reflexivity.
  - destruct (String.eqb_spec name n1) as [-> | N1]; simpl.
    + destruct (n =? n1); reflexivity.
    + rewrite IH. destruct (String.eqb_spec n n1) as [-> | _]; [| reflexivity].
      destruct (String.eqb_spec n1 name) as [E | _]; [| reflexivity].
      exfalso. auto.
Qed.

(** Saving what is there already leaves the directory as it is. *)
Lemma write_file_same name v files :
  assoc name files = Some v -> write_file name v files = files.
Proof.
  induction files as [| [n1 v1] files IH]; simpl; [discriminate |].
  destruct (String.eqb_spec name n1) as [-> | _].
  - intros [= ->]. reflexivity.
  - intro H. rewrite IH by exact H. reflexivity.
Qed.

Lemma assoc_write_all_other l files n :
  ~ In n (map fst l) -> assoc n (write_all l files) = assoc n files.
Proof.
  revert files. induction l as [| [n1 v1] l IH]; simpl; intros files N; [reflexivity |].
  unfold write_all in *. simpl. rewrite IH by tauto.
  rewrite assoc_write_file. destruct (String.eqb_spec n n1) as [-> | _]; [| reflexivity].
  exfalso. tauto.
Qed.

Lemma assoc_write_all l files n v :
  NoDup (map fst l) -> In (n, v) l -> assoc n (write_all l files) = Some v.
Proof.
  revert files. induction l as [| [n1 v1] l IH]; simpl; intros files D H; [contradiction |].
  inversion D as [| ? ? N D']; subst. unfold write_all in *. simpl.
  destruct H as [[= -> ->] | H].
  - fold (write_all l (write_file n v files)).
    rewrite assoc_write_all_other by exact N.
    rewrite assoc_write_file, String.eqb_refl. reflexivity.
  - apply IH; assumption.
Qed.

Lemma write_all_same l files :
  (forall n v, In (n, v) l -> assoc n files = Some v) -> write_all l files = files.
Proof.
  induction l as [| [n1 v1] l IH]; simpl; intro H; [reflexivity |].
  unfold write_all in *. simpl. rewrite write_file_same by (apply H; auto).
  apply IH. intros n v Hin. apply H. auto.
Qed.

(** Saving the same figures twice is saving them once. *)
Lemma write_all_twice l files :
  NoDup (map fst l) -> write_all l (write_all l files) = write_all l files.
Proof.
  intro D. apply write_all_same. intros n v H. apply assoc_write_all; assumption.
Qed.
End Files.

Lemma figures_of_names (t : Reports) : NoDup (map fst (figures_of t)).
Proof.
  cbn. repeat constructor; cbn; intro H;
    repeat (destruct H as [H | H]; [discriminate H |]); exact H.
Qed.

(** The script as one step: it needs the input file and nothing else, and
    leaves the six figures in the directory. *)
Lemma run_result (w : World) :
  run w
  = match food_orders_csv w with
    | None => None
    | Some orders =>
        let t := reports_of (derive orders) (map (band_data_row (derive orders)) band_order) in
        Some ({| food_orders_csv := Some orders;
                 visualizations :=
                   Some (write_all (figures_of t)
                           match visualizations w with Some fs => fs | None => [] end) |},
              t)
    end.
Proof.
  unfold run, read_csv, makedirs_exist_ok. cbn [food_orders_csv visualizations].
  destruct (food_orders_csv w) as [orders |]; [| reflexivity].
  cbn [bind]. rewrite band_data_rows.
  destruct (visualizations w) as [fs |]; reflexivity.
Qed.

(** C9: the tables of a run depend on the input file alone, so two runs on
    the same file compute the same six tables; a run leaves the input file
    as it was, and running again from the world it left gives the same
    tables and the same files. *)
Theorem rerun_same_tables (w w' : World) :
  food_orders_csv w = food_orders_csv w' ->
  option_map snd (run w) = option_map snd (run w')
  /\ (forall w1 t, run w = Some (w1, t) ->
        food_orders_csv w1 = food_orders_csv w /\ run w1 = Some (w1, t)).
Proof.
  intro E. split.
  - rewrite !run_result, <- E. destruct (food_orders_csv w); reflexivity.
  - intros w1 t H. rewrite run_result in H.
    destruct (food_orders_csv w) as [orders |] eqn:Ecsv; [| discriminate].
    cbv zeta in H.
    set (t0 := reports_of (derive orders) (map (band_data_row (derive orders)) band_order)) in H.
    set (fs0 := match visualizations w with Some fs => fs | None => [] end) in H.
    pose proof (write_all_twice (figures_of t0) fs0 (figures_of_names t0)) as W.
    assert (E1 : w1 = {| food_orders_csv := Some orders;
                         visualizations := Some (write_all (figures_of t0) fs0) |})
      by congruence.
    assert (E2 : t = t0) by congruence.
    subst w1 t. split; [reflexivity |].
    rewrite run_result. cbn [food_orders_csv visualizations]. cbv zeta.
    fold t0. rewrite W. reflexivity.
Qed.

(** ** Binary64 arguments *)

Lemma SFcompare_key (x y : spec_float) : SFcompare x y = cmp_key (sf_key x) (sf_key y).
Proof.
  destruct x as [s1 | s1 | | s1 m1 e1], y as [s2 | s2 | | s2 m2 e2];
    try destruct s1; try destruct s2; try reflexivity.
  cbn [SFcompare sf_key cmp_key lex3 Z.compare Pos.compare].
  rewrite Z.compare_opp, (Z.compare_antisym e1 e2).
  destruct (e1 ?= e2)%Z; reflexivity.
Qed.

Lemma lex3_spec (a b : Z * Z * Z) :
  CompareSpec (lex_eq a b) (lex_lt a b) (lex_lt b a) (lex3 a b).
Proof.
  destruct a as [[a1 a2] a3], b as [[b1 b2] b3]. unfold lex3, lex_eq, lex_lt.
  destruct (Z.compare_spec a1 b1); [| constructor; lia | constructor; lia].
  destruct (Z.compare_spec a2 b2); [| constructor; lia | constructor; lia].
  destruct (Z.compare_spec a3 b3); constructor; lia.
Qed.

Lemma lex3_antisym (a b : Z * Z * Z) : lex3 a b = CompOpp (lex3 b a).
Proof.
  destruct a as [[a1 a2] a3], b as [[b1 b2] b3]. unfold lex3.
  rewrite (Z.compare_antisym b1 a1), (Z.compare_antisym b2 a2), (Z.compare_antisym b3 a3).
  destruct (b1 ?= a1)%Z; cbn [CompOpp]; try reflexivity.
  destruct (b2 ?= a2)%Z; reflexivity.
Qed.

Lemma float_eqb_key (x y : float) :
  PrimFloat.eqb x y
  = match cmp_key (float_key x) (float_key y) with Some Eq => true | _ => false end.
Proof.
  rewrite FloatAxioms.eqb_spec. unfold SFeqb. rewrite SFcompare_key. reflexivity.
Qed.

Lemma float_ltb_key (x y : float) :
  PrimFloat.ltb x y
  = match cmp_key (float_key x) (float_key y) with Some Lt => true | _ => false end.
Proof.
  rewrite FloatAxioms.ltb_spec. unfold SFltb. rewrite SFcompare_key. reflexivity.
Qed.

Lemma float_leb_key (x y : float) :
  PrimFloat.leb x y
  = match cmp_key (float_key x) (float_key y) with
    | Some Lt | Some Eq => true
    | _ => false
    end.
Proof.
  rewrite FloatAxioms.leb_spec. unfold SFleb. rewrite SFcompare_key. reflexivity.
Qed.

(** The literals of the two classifiers as floats. *)
Lemma key_lit_0 : float_key (lit 0) = Some (0, 0, 0)%Z.
Proof. vm_compute. reflexivity. Qed.

Lemma key_lit_5 : float_key (lit 5) = Some (1, -50, 5629499534213120)%Z.
Proof. vm_compute. reflexivity. Qed.

Lemma key_lit_15 : float_key (lit 15) = Some (1, -49, 8444249301319680)%Z.
Proof. vm_compute. reflexivity. Qed.

Lemma key_lit_30 : float_key (lit 30) = Some (1, -48, 8444249301319680)%Z.
Proof. vm_compute. reflexivity. Qed.

Lemma key_lit_50 : float_key (lit 50) = Some (1, -47, 7036874417766400)%Z.
Proof. vm_compute. reflexivity. Qed.

(** Turns the comparisons of the float [d] with literals into comparisons
    of keys, [d] with the key [(k1, k2, k3)] or, as a second goal, NaN. *)
Ltac float_keys d :=
  cbn [py_eq py_le py_lt PyNum_float];
  rewrite ?float_eqb_key, ?float_leb_key, ?float_ltb_key;
  rewrite ?key_lit_0, ?key_lit_5, ?key_lit_15, ?key_lit_30, ?key_lit_50;
  destruct (float_key d) as [[[k1 k2] k3] |]; cbn [cmp_key].

(** Case analysis on every comparison of keys, each oriented with the
    variable on the left first. *)
Ltac lex_cases :=
  repeat match goal with
    | |- context [lex3 (?a1, ?a2, ?a3) (?k1, ?k2, ?k3)] =>
        is_var k1; rewrite (lex3_antisym (a1, a2, a3) (k1, k2, k3))
    end;
  repeat match goal with
    | |- context [lex3 ?a ?b] => destruct (lex3_spec a b)
    end;
  cbn [CompOpp]; unfold lex_lt, lex_eq in *.

Ltac band_float :=
  repeat split; intros;
  repeat match goal with H : _ /\ _ |- _ => destruct H end;
  try reflexivity; try discriminate; try (exfalso; lia).

(** X1: the partition of C4 for binary64 discounts: on the floats that are at
    least 0 (which leaves out NaN) each label is given exactly on its
    interval, for the comparisons of the floats themselves. *)
Theorem discount_band_partition_float (d : float)
  (Hd : PrimFloat.leb (lit 0) d = true) :
  (discount_band d = "No Discount" <-> PrimFloat.eqb d (lit 0) = true)
  /\ (discount_band d = "Low (1-5)"
      <-> PrimFloat.ltb (lit 0) d = true /\ PrimFloat.leb d (lit 5) = true)
  /\ (discount_band d = "Mid (6-15)"
      <-> PrimFloat.ltb (lit 5) d = true /\ PrimFloat.leb d (lit 15) = true)
  /\ (discount_band d = "High (15+)" <-> PrimFloat.ltb (lit 15) d = true).
Proof.
  revert Hd. unfold discount_band. float_keys d; [| discriminate].
  lex_cases; band_float.
Qed.

Lemma discount_band_partition_float_witness :
  discount_band 7.5%float = "Mid (6-15)"
  <-> PrimFloat.ltb (lit 5) 7.5%float = true /\ PrimFloat.leb 7.5%float (lit 15) = true.
Proof.
  apply (proj1 (proj2 (proj2 (discount_band_partition_float 7.5%float eq_refl)))).
Defined.

(** X2: the partition of C5 for binary64 order values that are at least 0
    (which leaves out NaN), for the comparisons of the floats themselves. *)
Theorem order_band_partition_float (v : float)
  (Hv : PrimFloat.leb (lit 0) v = true) :
  (order_band v = "Low (< $15)" <-> PrimFloat.ltb v (lit 15) = true)
  /\ (order_band v = "Mid ($15-30)"
      <-> PrimFloat.leb (lit 15) v = true /\ PrimFloat.ltb v (lit 30) = true)
  /\ (order_band v = "High ($30-50)"
      <-> PrimFloat.leb (lit 30) v = true /\ PrimFloat.ltb v (lit 50) = true)
  /\ (order_band v = "Premium (> $50)" <-> PrimFloat.leb (lit 50) v = true).
Proof.
  revert Hv. unfold order_band. float_keys v; [| discriminate].
  lex_cases; band_float.
Qed.

Lemma order_band_partition_float_witness :
  order_band 50%float = "Premium (> $50)" <-> PrimFloat.leb (lit 50) 50%float = true.
Proof.
  apply (proj2 (proj2 (proj2 (order_band_partition_float 50%float eq_refl)))).
Defined.

Lemma bands_of_negative_float (x : float) :
  PrimFloat.ltb x (lit 0) = true ->
  discount_band x = "Low (1-5)" /\ order_band x = "Low (< $15)".
Proof.
  unfold discount_band, order_band. float_keys x; [| discriminate].
  lex_cases; band_float.
Qed.

Lemma bands_of_negative_Q (x : Q) :
  (x < 0)%Q -> discount_band x = "Low (1-5)" /\ order_band x = "Low (< $15)".
Proof.
  intro Hx. split.
  - destruct (discount_band_Q_cases x) as [C | [C | [C | C]]]; band_solve.
  - destruct (order_band_Q_cases x) as [C | [C | [C | C]]]; band_solve.
Qed.

(** X3: what the classifiers make of the values that are no numbers of
    the data model: NaN is neither equal to nor below any literal, so it falls
    through to the last band; the infinities are ordered as usual. *)
Example bands_of_special_floats :
  discount_band PrimFloat.nan = "High (15+)"
  /\ order_band PrimFloat.nan = "Premium (> $50)"
  /\ discount_band PrimFloat.neg_infinity = "Low (1-5)"
  /\ order_band PrimFloat.neg_infinity = "Low (< $15)"
  /\ discount_band PrimFloat.infinity = "High (15+)"
  /\ order_band PrimFloat.infinity = "Premium (> $50)"
  /\ discount_band (PrimFloat.opp PrimFloat.zero) = "No Discount".
Proof. repeat split; vm_compute; reflexivity. Qed.

(** C10: the classifiers are total.  For every number type and every value
    of it each returns one of its four labels; every negative rational and
    every negative binary64 value (minus infinity included) is in the
    low band of both. *)
Theorem band_classifiers_total :
  (forall (A : Type) (N : PyNum A) (x : A),
     In (discount_band x) discount_bands /\ In (order_band x) band_order)
  /\ (forall x : Q, (x < 0)%Q ->
        discount_band x = "Low (1-5)" /\ order_band x = "Low (< $15)")
  /\ (forall x : float, PrimFloat.ltb x (lit 0) = true ->
        discount_band x = "Low (1-5)" /\ order_band x = "Low (< $15)").
Proof.
  split; [| split].
  - intros A N x. split; [apply discount_band_in | apply order_band_in].
  - exact bands_of_negative_Q.
  - exact bands_of_negative_float.
Qed.

Lemma band_classifiers_total_witness :
  (discount_band (- (3 # 1))%Q = "Low (1-5)" /\ order_band (- (3 # 1))%Q = "Low (< $15)")
  /\ (discount_band (-2.5)%float = "Low (1-5)" /\ order_band (-2.5)%float = "Low (< $15)").
Proof.
  split.
  - apply (proj1 (proj2 band_classifiers_total)). reflexivity.
  - apply (proj2 (proj2 band_classifiers_total)). reflexivity.
Defined.

(** ** Witnesses on the sample data *)


(** The two restaurants of [orders_ties] tie at 20 and are both kept, in
    the order of their ids. *)
Lemma top_refund_ranking_witness :
  (map Refund.restaurant_id (top_refund (derive orders_ties)) = ["A3"; "B7"]
   /\ Forall (fun r => In r (rest_refund (derive orders_ties)) /\ 5 <= Refund.total_orders r)
        (top_refund (derive orders_ties))
   /\ StronglySorted str_lt (map Refund.restaurant_id (rest_refund (derive orders_ties))))
  /\ top_of [sample_R1; sample_R2; sample_R3] = [sample_R1; sample_R3]
  /\ top_of [sample_R3; sample_R2; sample_R1] = [sample_R1; sample_R3].
Proof.
  split.
  - split; [reflexivity |].
    refine (proj2 (proj1 top_refund_ranking orders_ties _)).
    repeat constructor.
  - apply (proj2 top_refund_ranking sample_R1 sample_R2 sample_R3); reflexivity.
Defined.

Lemma rerun_same_tables_witness :
  option_map snd (run world_fresh) = option_map snd (run world_used).
Proof.
  exact (proj1 (rerun_same_tables world_fresh world_used eq_refl)).
Defined.

(** ** Further properties of the run and of the grouping *)

(** X4: natural grouping: one group per value of the key that occurs, no value
    twice, none left out, none without rows. *)
Theorem groupby_one_group_per_key (col : Df.row -> string) (df : list Df.row) :
  NoDup (map fst (groupby col df))
  /\ (forall k, In k (map fst (groupby col df)) <-> exists r, In r df /\ col r = k)
  /\ Forall (fun kg => map snd (snd kg) = rows_in col (fst kg) df /\ snd kg <> [])
       (groupby col df).
Proof.
  split; [| split].
  - apply sorted_keys_NoDup, groupby_keys_sorted.
  - apply groupby_key_iff.
  - apply Forall_forall. intros [k g] H. apply groupby_In in H. destruct H as [-> N].
    cbn [fst snd]. split; [apply group_at_rows |].
    intro E. apply N. apply group_at_nil. exact E.
Qed.

(** The end-to-end example of the specification: one profitable and one
    loss-making order give one row each, the loss-making one first. *)
Example profit_summary_example :
  map (fun r => (Profit.profitable r, Profit.order_count r))
    (profit_summary (derive [order_A; order_B]))
  = [("Loss-Making", 1); ("Profitable", 1)].
Proof. reflexivity. Qed.

(** ** The month key *)

Lemma digit_inj (a b : nat) : digit a = digit b -> a mod 10 = b mod 10.
Proof.
  unfold digit. intro H. apply (f_equal nat_of_ascii) in H.
  pose proof (Nat.mod_upper_bound a 10 ltac:(discriminate)).
  pose proof (Nat.mod_upper_bound b 10 ltac:(discriminate)).
  rewrite !nat_ascii_embedding in H by lia. lia.
Qed.

(** A number below 10000 is known by its four decimal digits. *)
Lemma four_digits (a b : nat) :
  a < 100 * 100 -> b < 100 * 100 ->
  (a / 1000) mod 10 = (b / 1000) mod 10 -> (a / 100) mod 10 = (b / 100) mod 10 ->
  (a / 10) mod 10 = (b / 10) mod 10 -> a mod 10 = b mod 10 -> a = b.
Proof.
  intros Ha Hb H1 H2 H3 H4.
  pose proof (Nat.div_mod_eq a 10) as A0. pose proof (Nat.div_mod_eq b 10) as B0.
  pose proof (Nat.div_mod_eq (a / 10) 10) as A1.
  pose proof (Nat.div_mod_eq (b / 10) 10) as B1.
  pose proof (Nat.div_mod_eq (a / 10 / 10) 10) as A2.
  pose proof (Nat.div_mod_eq (b / 10 / 10) 10) as B2.
  pose proof (Nat.div_mod_eq (a / 10 / 10 / 10) 10) as A3.
  pose proof (Nat.div_mod_eq (b / 10 / 10 / 10) 10) as B3.
  assert (E1 : a / 100 = a / 10 / 10) by (rewrite Nat.Div0.div_div; reflexivity).
  assert (E2 : a / 1000 = a / 10 / 10 / 10) by (rewrite !Nat.Div0.div_div; reflexivity).
  assert (E3 : b / 100 = b / 10 / 10) by (rewrite Nat.Div0.div_div; reflexivity).
  assert (E4 : b / 1000 = b / 10 / 10 / 10) by (rewrite !Nat.Div0.div_div; reflexivity).
  rewrite E1, E3 in H2. rewrite E2, E4 in H1.
  assert (a / 10 / 10 / 10 / 10 = 0).
  { apply Nat.div_small_iff; [discriminate |].
    do 3 apply Nat.Div0.div_lt_upper_bound. lia. }
  assert (b / 10 / 10 / 10 / 10 = 0).
  { apply Nat.div_small_iff; [discriminate |].
    do 3 apply Nat.Div0.div_lt_upper_bound. lia. }
  lia.
Qed.

(** X7: for timestamps with a year of at most four digits and a month of at
    most two, two orders have the same [order_month] exactly when they are
    of the same year and month: the rows of [monthly] are the calendar
    months. *)
Theorem order_month_same_iff (t1 t2 : Timestamp) :
  year t1 < 100 * 100 -> year t2 < 100 * 100 -> month t1 < 100 -> month t2 < 100 ->
  (period_M_str t1 = period_M_str t2 <-> year t1 = year t2 /\ month t1 = month t2).
Proof.
  intros Y1 Y2 M1 M2. split; [| intros [Hy Hm]; apply period_M_str_same; assumption].
  unfold period_M_str.
  remember (year t1 / 1000) as a3. remember (year t1 / 100) as a2.
  remember (year t1 / 10) as a1.
  remember (year t2 / 1000) as b3. remember (year t2 / 100) as b2.
  remember (year t2 / 10) as b1.
  remember (month t1 / 10) as c1. remember (month t2 / 10) as d1.
  intro H. injection H as H1 H2 H3 H4 H5 H6.
  apply digit_inj in H1, H2, H3, H4, H5, H6. subst.
  split.
  - apply four_digits; assumption.
  - pose proof (Nat.div_mod_eq (month t1) 10). pose proof (Nat.div_mod_eq (month t2) 10).
    assert (month t1 / 10 < 10) by (apply Nat.Div0.div_lt_upper_bound; lia).
    assert (month t2 / 10 < 10) by (apply Nat.Div0.div_lt_upper_bound; lia).
    rewrite (Nat.mod_small (month t1 / 10)) in H5 by assumption.
    rewrite (Nat.mod_small (month t2 / 10)) in H5 by assumption.
    lia.
Qed.

Lemma order_month_same_iff_witness :
  period_M_str (ts 2024 1 5) = period_M_str (ts 2024 2 5)
  <-> 2024 = 2024 /\ 1 = 2.
Proof.
  apply (order_month_same_iff (ts 2024 1 5) (ts 2024 2 5)); cbn; lia.
Defined.

(** ** Column names *)

Ltac all_ascii c := destruct c as [[] [] [] [] [] [] [] []].

Lemma norm_char_idem (c : ascii) : norm_char (norm_char c) = norm_char c.
Proof. all_ascii c; reflexivity. Qed.

Lemma norm_char_space (c : ascii) : isspace (norm_char c) = true -> isspace c = true.
Proof. all_ascii c; cbv; intro H; (reflexivity || discriminate H). Qed.

Lemma norm_char_plain (c : ascii) :
  norm_char c <> " "%char /\ norm_char c <> "/"%char /\ is_upper (norm_char c) = false.
Proof. all_ascii c; repeat split; (reflexivity || discriminate). Qed.

Lemma norm_char_upper (c : ascii) : norm_char (upper_char c) = norm_char c.
Proof. all_ascii c; reflexivity. Qed.

Lemma norm_char_lower (c : ascii) : norm_char (lower_char c) = norm_char c.
Proof. all_ascii c; reflexivity. Qed.

Lemma isspace_upper (c : ascii) : isspace (upper_char c) = isspace c.
Proof. all_ascii c; reflexivity. Qed.

Lemma isspace_lower (c : ascii) : isspace (lower_char c) = isspace c.
Proof. all_ascii c; reflexivity. Qed.

Lemma str_map_map (f g : ascii -> ascii) (s : string) :
  str_map f (str_map g s) = str_map (fun c => f (g c)) s.
Proof. induction s as [| c s IH]; simpl; [reflexivity | rewrite IH; reflexivity]. Qed.

Lemma str_map_ext (f g : ascii -> ascii) (s : string) :
  (forall c, f c = g c) -> str_map f s = str_map g s.
Proof.
  intro E. induction s as [| c s IH]; simpl; [reflexivity | rewrite E, IH; reflexivity].
Qed.

Lemma chars_str_map (f : ascii -> ascii) (s : string) :
  chars (str_map f s) = map f (chars s).
Proof.
  unfold chars. induction s as [| c s IH]; simpl; [reflexivity | rewrite IH; reflexivity].
Qed.

(** Line 26 is [strip] followed by a map over the characters. *)
Lemma normalize_column_map (s : string) :
  normalize_column s = str_map norm_char (strip s).
Proof.
  unfold normalize_column, replace_char, lower. rewrite !str_map_map.
  apply str_map_ext. intro c. reflexivity.
Qed.

Lemma lstrip_idem (s : string) : lstrip (lstrip s) = lstrip s.
Proof.
  induction s as [| c s IH]; simpl; [reflexivity |].
  destruct (isspace c) eqn:E; [exact IH | simpl; rewrite E; reflexivity].
Qed.

Lemma rstrip_idem (s : string) : rstrip (rstrip s) = rstrip s.
Proof.
  induction s as [| c s IH]; simpl; [reflexivity |].
  destruct (rstrip s) as [| c' t] eqn:E.
  - destruct (isspace c) eqn:Ec; simpl; [reflexivity | rewrite Ec; reflexivity].
  - simpl in *. rewrite IH. reflexivity.
Qed.

(** Removing trailing blanks leaves a clean start clean. *)
Lemma lstrip_rstrip (s : string) : lstrip s = s -> lstrip (rstrip s) = rstrip s.
Proof.
  destruct s as [| c s]; simpl; [reflexivity |].
  destruct (isspace c) eqn:E.
  - intro H. exfalso.
    assert (L : String.length (lstrip s) <= String.length s).
    { clear. induction s as [| c s IH]; simpl; [lia |]. destruct (isspace c); simpl; lia. }
    rewrite H in L. simpl in L. lia.
  - intros _. destruct (rstrip s); simpl; rewrite E; reflexivity.
Qed.

Lemma strip_clean (s : string) :
  lstrip (strip s) = strip s /\ rstrip (strip s) = strip s.
Proof.
  unfold strip. split; [apply lstrip_rstrip, lstrip_idem | apply rstrip_idem].
Qed.

Section MapClean.
Variable f : ascii -> ascii.
Hypothesis f_space : forall c, isspace (f c) = true -> isspace c = true.

Lemma lstrip_map_clean (s : string) : lstrip s = s -> lstrip (str_map f s) = str_map f s.
Proof.
  destruct s as [| c s]; simpl; [reflexivity |].
  destruct (isspace c) eqn:E.
  - intro H. exfalso.
    assert (L : String.length (lstrip s) <= String.length s).
    { clear. induction s as [| c s IH]; simpl; [lia |]. destruct (isspace c); simpl; lia. }
    rewrite H in L. simpl in L. lia.
  - intros _. destruct (isspace (f c)) eqn:E'; [| reflexivity].
    apply f_space in E'. congruence.
Qed.

Lemma rstrip_map_clean (s : string) : rstrip s = s -> rstrip (str_map f s) = str_map f s.
Proof.
  induction s as [| c s IH]; simpl; [reflexivity |].
  destruct (rstrip s) as [| c' t] eqn:E.
  - destruct (isspace c) eqn:Ec; [discriminate |].
    intros [= <-]. simpl.
    destruct (isspace (f c)) eqn:E'; [| reflexivity].
    apply f_space in E'. congruence.
  - intros [= H]. rewrite (IH H), <- H. reflexivity.
Qed.
End MapClean.

Section MapSpace.
Variable f : ascii -> ascii.
Hypothesis f_space : forall c, isspace (f c) = isspace c.

Lemma lstrip_map (s : string) : lstrip (str_map f s) = str_map f (lstrip s).
Proof.
  induction s as [| c s IH]; simpl; [reflexivity |].
  rewrite f_space. destruct (isspace c); [exact IH | reflexivity].
Qed.

Lemma rstrip_map (s : string) : rstrip (str_map f s) = str_map f (rstrip s).
Proof.
  induction s as [| c s IH]; simpl; [reflexivity |].
  rewrite IH, f_space. destruct (rstrip s); simpl; [destruct (isspace c) |]; reflexivity.
Qed.

Lemma strip_map (s : string) : strip (str_map f s) = str_map f (strip s).
Proof. unfold strip. rewrite lstrip_map, rstrip_map. reflexivity. Qed.
End MapSpace.

Lemma lstrip_app_space (ws s : string) : all_space ws -> lstrip (ws ++ s)%string = lstrip s.
Proof.
  unfold all_space, chars. induction ws as [| c ws IH]; simpl; intro H; [reflexivity |].
  inversion H as [| ? ? Hc Hws]; subst. rewrite Hc. auto.
Qed.

Lemma rstrip_space (ws : string) : all_space ws -> rstrip ws = EmptyString.
Proof.
  unfold all_space, chars. induction ws as [| c ws IH]; simpl; intro H; [reflexivity |].
  inversion H as [| ? ? Hc Hws]; subst. rewrite (IH Hws), Hc. reflexivity.
Qed.

Lemma rstrip_app_space (s ws : string) : all_space ws -> rstrip (s ++ ws)%string = rstrip s.
Proof.
  intro H. induction s as [| c s IH]; simpl; [apply rstrip_space, H |].
  rewrite IH. reflexivity.
Qed.

Lemma lstrip_app (s t : string) :
  lstrip (s ++ t)%string
  = match lstrip s with EmptyString => lstrip t | u => (u ++ t)%string end.
Proof.
  induction s as [| c s IH]; simpl; [destruct (lstrip t); reflexivity |].
  destruct (isspace c); [exact IH | reflexivity].
Qed.

(** Blanks around a name do not count. *)
Lemma strip_pad (ws1 s ws2 : string) :
  all_space ws1 -> all_space ws2 -> strip (ws1 ++ s ++ ws2)%string = strip s.
Proof.
  intros H1 H2. unfold strip. rewrite (lstrip_app_space _ _ H1), lstrip_app.
  destruct (lstrip s) as [| c u] eqn:E.
  - assert (L : lstrip ws2 = EmptyString).
    { clear - H2. unfold all_space, chars in H2.
      induction ws2 as [| c ws IH]; simpl; [reflexivity |].
      inversion H2 as [| ? ? Hc Hws]; subst. rewrite Hc. auto. }
    rewrite L. reflexivity.
  - apply rstrip_app_space, H2.
Qed.

(** X8: a column name after line 26 (ASCII names) has no space, no slash
    and no upper-case letter, neither starts nor ends with a blank, and is
    left as it is by a second pass. *)
Theorem normalize_column_clean (s : string) (Hs : ascii_only s) :
  Forall (fun c => c <> " "%char /\ c <> "/"%char /\ is_upper c = false)
    (chars (normalize_column s))
  /\ strip (normalize_column s) = normalize_column s
  /\ normalize_column (normalize_column s) = normalize_column s.
Proof.
  assert (C : strip (normalize_column s) = normalize_column s).
  { rewrite normalize_column_map. destruct (strip_clean s) as [L R]. unfold strip at 1.
    rewrite (lstrip_map_clean _ norm_char_space _ L).
    apply (rstrip_map_clean _ norm_char_space _ R). }
  split; [| split; [exact C |]].
  - rewrite normalize_column_map, chars_str_map. apply Forall_forall.
    intros c Hc. apply in_map_iff in Hc. destruct Hc as [c0 [<- _]].
    apply norm_char_plain.
  - rewrite (normalize_column_map (normalize_column s)), C.
    rewrite normalize_column_map, str_map_map.
    apply str_map_ext. apply norm_char_idem.
Qed.

Lemma normalize_column_clean_witness :
  normalize_column (normalize_column " Refunds/Chargebacks ")
  = normalize_column " Refunds/Chargebacks ".
Proof.
  refine (proj2 (proj2 (normalize_column_clean " Refunds/Chargebacks " _))).
  unfold ascii_only. cbn. repeat constructor.
Defined.

(** X9: line 26 does not tell names apart that differ in letter case or in
    blanks around them (ASCII names): two headers of the file can end up
    as one column name. *)
Theorem normalize_column_insensitive (ws1 s ws2 : string)
  (Hs : ascii_only s) (H1 : all_space ws1) (H2 : all_space ws2) :
  normalize_column (ws1 ++ str_map upper_char s ++ ws2)%string = normalize_column s
  /\ normalize_column (ws1 ++ str_map lower_char s ++ ws2)%string = normalize_column s.
Proof.
  rewrite !normalize_column_map, !(strip_pad _ _ _ H1 H2).
  rewrite (strip_map _ isspace_upper), (strip_map _ isspace_lower), !str_map_map.
  split; apply str_map_ext; [apply norm_char_upper | apply norm_char_lower].
Qed.

Lemma normalize_column_insensitive_witness :
  normalize_column (" " ++ str_map upper_char "Order id" ++ "  ")%string
  = normalize_column "Order id".
Proof.
  refine (proj1 (normalize_column_insensitive " " "Order id" "  " _ _ _)).
  - unfold ascii_only. cbn. repeat constructor.
  - unfold all_space. cbn. repeat constructor.
  - unfold all_space. cbn. repeat constructor.
Defined.

(** ** Every order in exactly one group *)

Lemma Qsum_from (l : list Q) (a : Q) : (fold_left Qplus l a == a + Qsum l)%Q.
Proof.
  unfold Qsum. revert a. induction l as [| x l IH]; simpl; intro a; [ring |].
  rewrite (IH (a + x)%Q), (IH (0 + x)%Q). ring.
Qed.

Lemma Qsum_cons (x : Q) (l : list Q) : (Qsum (x :: l) == x + Qsum l)%Q.
Proof. unfold Qsum at 1. simpl. rewrite Qsum_from. ring. Qed.

Lemma list_sum_perm (l1 l2 : list nat) : Permutation l1 l2 -> list_sum l1 = list_sum l2.
Proof.
  induction 1 as [| x l1 l2 _ IH | x y l | l1 l2 l3 _ IH1 _ IH2]; simpl; lia.
Qed.

Lemma rows_in_cons (col : Df.row -> string) (k : string) (r : Df.row) (df : list Df.row) :
  rows_in col k (r :: df)
  = if col r =? k then r :: rows_in col k df else rows_in col k df.
Proof. reflexivity. Qed.

Section Partition.
Variable col : Df.row -> string.
Variable keys : list string.
Hypothesis keys_NoDup : NoDup keys.

(** Among keys without repetition, a row adds one to the count of its own
    key and nothing to the others. *)
Lemma count_bump (ks : list string) (g : string -> list Df.row) (r : Df.row) :
  NoDup ks ->
  list_sum (map (fun k => length (if col r =? k then r :: g k else g k)) ks)
  = list_sum (map (fun k => length (g k)) ks) + (if in_dec string_dec (col r) ks then 1 else 0).
Proof.
  induction ks as [| k ks IH]; simpl; intro D; [reflexivity |].
  inversion D as [| ? ? N D']; subst. rewrite (IH D').
  destruct (String.eqb_spec (col r) k) as [E | E].
  - subst k. destruct (string_dec (col r) (col r)) as [F0 | F]; [| contradiction].
    destruct (in_dec string_dec (col r) ks) as [I | I0]; [contradiction |]. simpl. lia.
  - destruct (string_dec k (col r)) as [F | F0]; [symmetry in F; contradiction |].
    destruct (in_dec string_dec (col r) ks); lia.
Qed.

Lemma count_partition (df : list Df.row) :
  (forall r, In r df -> In (col r) keys) ->
  list_sum (map (fun k => length (rows_in col k df)) keys) = length df.
Proof.
  induction df as [| r df IH]; intro H.
  - assert (Z : forall ks : list string,
               list_sum (map (fun k => length (rows_in col k [])) ks) = 0)
      by (induction ks; simpl; auto).
    apply Z.
  - rewrite (map_ext _ (fun k => length (if col r =? k then r :: rows_in col k df
                                        else rows_in col k df)))
      by (intro k; rewrite rows_in_cons; reflexivity).
    rewrite (count_bump keys (fun k => rows_in col k df) r keys_NoDup).
    rewrite IH by (intros r' Hr'; apply H; right; exact Hr').
    destruct (in_dec string_dec (col r) keys) as [N0 | N]; [simpl; lia |].
    exfalso. apply N, H. left. reflexivity.
Qed.

End Partition.

(** The groups of [groupby] cover the table: the counts of the groups add up
    to the number of rows. *)
Lemma groupby_count_total (col : Df.row -> string) (df : list Df.row) :
  list_sum (map (fun k => length (rows_in col k df)) (map fst (groupby col df)))
  = length df.
Proof.
  apply count_partition.
  - apply sorted_keys_NoDup, groupby_keys_sorted.
  - intros r Hr. apply groupby_key_iff. eauto.
Qed.

(** The tables as their rows, one for each key of the grouping. *)
Lemma aov_pay_rows (df : list Df.row) :
  aov_pay df
  = sort_values_Q AovPay.avg_order_value
      (map (aov_pay_row df) (map fst (groupby Df.payment_method df))).
Proof.
  unfold aov_pay. f_equal.
  rewrite (groupby_shape Df.payment_method df) at 1. rewrite map_map.
  apply map_ext. intro k. unfold aov_pay_row, mean_in. cbn [fst snd].
  rewrite count_column, mean_column, group_at_rows. reflexivity.
Qed.

Lemma aov_pay_perm (df : list Df.row) :
  Permutation (aov_pay df)
    (map (aov_pay_row df) (map fst (groupby Df.payment_method df))).
Proof. rewrite aov_pay_rows. apply sort_by_perm. Qed.

Lemma profit_summary_rows (df : list Df.row) :
  profit_summary df = map (profit_row df) (map fst (groupby Df.profitable df)).
Proof.
  unfold profit_summary.
  rewrite (groupby_shape Df.profitable df) at 1. rewrite map_map.
  apply map_ext. intro k. unfold profit_row, mean_in. cbn [fst snd].
  rewrite count_column, sum_column, mean_column, group_at_rows. reflexivity.
Qed.

Lemma disc_impact_rows (df : list Df.row) :
  disc_impact df
  = sort_values_opt Disc.sort
      (map (disc_row df) (map fst (groupby Df.discount_band df))).
Proof.
  unfold disc_impact. f_equal.
  rewrite (groupby_shape Df.discount_band df) at 1. rewrite map_map.
  apply map_ext. intro k. unfold disc_row, mean_in. cbn [fst snd].
  rewrite count_column, !mean_column, group_at_rows. reflexivity.
Qed.

Lemma derive_order_band_in (orders : list Order.t) (r : Df.row) :
  In r (derive orders) -> In (Df.order_band r) band_order.
Proof.
  intro H. apply derive_In in H. destruct H as [o [_ ->]]. apply order_band_in.
Qed.

Lemma band_order_NoDup : NoDup band_order.
Proof.
  unfold band_order. repeat constructor; cbn; intro H;
    repeat (destruct H as [H | H]; [discriminate H |]); exact H.
Qed.

(** The count of a row of [band_data], a missing one read as 0, is the
    number of orders of its band. *)
Lemma band_data_row_count (df : list Df.row) (b : string) :
  count_or_0 (Band.count (band_data_row df b)) = length (rows_in Df.order_band b df).
Proof.
  unfold band_data_row. rewrite has_band_rows.
  destruct (rows_in Df.order_band b df); reflexivity.
Qed.

(** X10: every order is counted exactly once in each table that is
    grouped by a column the script derives: the counts of the rows of
    [monthly], [profit_summary] and [disc_impact] add up to the number of
    orders, and so do the counts of [band_data] (no order is lost by its
    [reindex], a missing count being no order). *)
Theorem every_order_counted_once (orders : list Order.t) :
  let df := derive orders in
  list_sum (map Monthly.total_orders (monthly df)) = length orders
  /\ list_sum (map Profit.order_count (profit_summary df)) = length orders
  /\ list_sum (map Disc.order_count (disc_impact df)) = length orders
  /\ exists t,
       band_data df = Some t
       /\ list_sum (map (fun r => count_or_0 (Band.count r)) t) = length orders.
Proof.
  intro df.
  assert (L : length df = length orders) by apply length_map.
  rewrite <- L. repeat split.
  - rewrite monthly_rows, map_map. apply groupby_count_total.
  - rewrite profit_summary_rows, map_map. apply groupby_count_total.
  - rewrite disc_impact_rows. unfold sort_values_opt.
    rewrite (list_sum_perm _ _ (Permutation_map _ (sort_by_perm _ _))).
    rewrite map_map. apply groupby_count_total.
  - exists (map (band_data_row df) band_order). split; [apply band_data_rows |].
    rewrite map_map.
    rewrite (map_ext _ _ (band_data_row_count df)).
    apply count_partition; [apply band_order_NoDup |].
    intros r Hr. apply (derive_order_band_in orders). exact Hr.
Qed.

Lemma Q_of_nat_pos (n : nat) : 0 < n -> (0 < Q_of_nat n)%Q.
Proof.
  intro H. unfold Q_of_nat, Qlt. simpl. lia.
Qed.

(** ** The payment-method table *)

Lemma Qle_bool_total (x y : Q) : Qle_bool x y = false -> Qle_bool y x = true.
Proof.
  intro H. apply Qle_bool_iff, Qlt_le_weak, py_le_Q_false. exact H.
Qed.

Lemma Qle_bool_trans (x y z : Q) :
  Qle_bool x y = true -> Qle_bool y z = true -> Qle_bool x z = true.
Proof. rewrite !Qle_bool_iff. apply Qle_trans. Qed.

(** X12: [aov_pay] has one row per payment method that occurs, each with
    the number of its orders (at least one) and the mean of their order
    values, and the rows are in ascending order of that mean. *)
Theorem aov_pay_ascending (orders : list Order.t) :
  let df := derive orders in
  StronglySorted (fun a b => (AovPay.avg_order_value a <= AovPay.avg_order_value b)%Q)
    (aov_pay df)
  /\ NoDup (map AovPay.payment_method (aov_pay df))
  /\ (forall m, In m (map AovPay.payment_method (aov_pay df))
                <-> exists r, In r df /\ Df.payment_method r = m)
  /\ Forall (fun row =>
       let rows := rows_in Df.payment_method (AovPay.payment_method row) df in
       1 <= AovPay.total_orders row
       /\ AovPay.total_orders row = length rows
       /\ AovPay.avg_order_value row
          = (Qsum (map Df.order_value rows) / Q_of_nat (length rows))%Q)
     (aov_pay df).
Proof.
  intro df.
  assert (K : Permutation (map AovPay.payment_method (aov_pay df))
                (map fst (groupby Df.payment_method df))).
  { rewrite (Permutation_map _ (aov_pay_perm df)), map_map. cbn. rewrite map_id. reflexivity. }
  split; [| split; [| split]].
  - unfold aov_pay, sort_values_Q.
    match goal with |- StronglySorted _ (sort_by ?le ?l) =>
      pose proof (sort_by_sorted le
        (fun a b => Qle_bool_total _ _) (fun a b c => Qle_bool_trans _ _ _) l) as S
    end.
    induction S as [| x l S IH F]; constructor; [exact IH |].
    eapply Forall_impl; [| exact F]. intros a Ha. apply Qle_bool_iff. exact Ha.
  - apply (Permutation_NoDup (Permutation_sym K)).
    apply sorted_keys_NoDup, groupby_keys_sorted.
  - intro m. rewrite <- groupby_key_iff. split; apply Permutation_in; [| symmetry]; exact K.
  - apply Forall_forall. intros row Hrow.
    apply (Permutation_in _ (aov_pay_perm df)) in Hrow.
    apply in_map_iff in Hrow. destruct Hrow as [k [<- Hk]]. cbn.
    split; [| split; reflexivity].
    apply groupby_key_iff in Hk. destruct Hk as [r [Hr Hk]].
    assert (I : In r (rows_in Df.payment_method k df))
      by (apply filter_In; split; [exact Hr | apply String.eqb_eq; exact Hk]).
    destruct (rows_in Df.payment_method k df); [contradiction | simpl; lia].
Qed.

(** ** The profitability table *)

Lemma Qsum_pos (l : list Q) : l <> [] -> Forall (fun x => (0 < x)%Q) l -> (0 < Qsum l)%Q.
Proof.
  intros N F. destruct l as [| x l]; [contradiction |].
  clear N. revert x F. induction l as [| y l IH]; intros x F.
  - inversion F; subst. rewrite Qsum_cons. unfold Qsum. simpl. lra.
  - inversion F as [| ? ? Hx F']; subst. rewrite Qsum_cons.
    specialize (IH y F'). lra.
Qed.

Lemma Qsum_nonpos (l : list Q) : Forall (fun x => (x <= 0)%Q) l -> (Qsum l <= 0)%Q.
Proof.
  induction 1 as [| x l Hx F IH]; [unfold Qsum; simpl; lra |].
  rewrite Qsum_cons. lra.
Qed.

Lemma derive_profitable_sign (orders : list Order.t) (r : Df.row) :
  In r (derive orders) ->
  (Df.profitable r = "Profitable" /\ (0 < Df.contribution_margin r)%Q)
  \/ (Df.profitable r = "Loss-Making" /\ (Df.contribution_margin r <= 0)%Q).
Proof.
  intro H. apply derive_In in H. destruct H as [o [_ ->]].
  cbn [Df.profitable Df.contribution_margin derive_row].
  destruct (profitable_label_cases (margin_of o)) as [[E L] | [E L]]; rewrite L.
  - left. split; [reflexivity |]. apply py_gt_Q in E. exact E.
  - right. split; [reflexivity |]. unfold py_gt in E. apply py_lt_Q_false in E. exact E.
Qed.

Lemma profit_labels_sorted : StronglySorted str_lt profit_labels.
Proof. repeat constructor. Qed.

Lemma derive_profitable_in (orders : list Order.t) (r : Df.row) :
  In r (derive orders) -> In (Df.profitable r) profit_labels.
Proof.
  intro H. destruct (derive_profitable_sign orders r H) as [[E _] | [E _]]; rewrite E;
    unfold profit_labels; simpl; auto.
Qed.

Lemma profit_summary_keys (orders : list Order.t) :
  map fst (groupby Df.profitable (derive orders))
  = filter (has_band Df.profitable (derive orders)) profit_labels.
Proof.
  apply (groupby_keys_within _ _ profit_labels profit_labels_sorted).
  apply derive_profitable_in.
Qed.

(** X13: [profit_summary] has at most the two rows Loss-Making and
    Profitable, in that order, each only if it has orders.  The total
    margin of the Profitable row is above 0 and its text is put 50 above
    the bar; the total margin of the Loss-Making row is at most 0 and its
    text 150 below. *)
Theorem profit_summary_signs (orders : list Order.t) :
  let df := derive orders in
  map Profit.profitable (profit_summary df)
  = filter (has_band Df.profitable df) profit_labels
  /\ Forall (fun row =>
       (Profit.profitable row = "Profitable"
        /\ (0 < Profit.total_margin row)%Q
        /\ (margin_label_y row == Profit.total_margin row + 50)%Q)
       \/ (Profit.profitable row = "Loss-Making"
           /\ (Profit.total_margin row <= 0)%Q
           /\ (margin_label_y row == Profit.total_margin row - 150)%Q))
     (profit_summary df).
Proof.
  intro df. split.
  - rewrite profit_summary_rows, map_map. cbn. rewrite map_id. apply profit_summary_keys.
  - rewrite profit_summary_rows. apply Forall_forall. intros row Hrow.
    apply in_map_iff in Hrow. destruct Hrow as [k [<- Hk]].
    pose proof Hk as Hk'. apply groupby_key_iff in Hk'. destruct Hk' as [r0 [Hr0 E0]].
    unfold profit_labels in *. unfold margin_label_y. cbn [Profit.profitable Profit.total_margin profit_row].
    set (rows := rows_in Df.profitable k df).
    assert (NE : rows <> []).
    { assert (I : In r0 rows)
        by (apply filter_In; split; [exact Hr0 | apply String.eqb_eq; exact E0]).
      intro Z. rewrite Z in I. exact I. }
    assert (Each : forall r, In r rows -> In r df /\ Df.profitable r = k).
    { intros r Hr. apply filter_In in Hr. destruct Hr as [H1 H2].
      apply String.eqb_eq in H2. auto. }
    destruct (derive_profitable_sign orders r0 Hr0) as [[L _] | [L _]]; rewrite E0 in L; clear E0; subst k.
    + left. assert (P : (0 < Qsum (map Df.contribution_margin rows))%Q).
      { apply Qsum_pos; [destruct rows; [contradiction | discriminate] |].
        apply Forall_forall. intros x Hx. apply in_map_iff in Hx.
        destruct Hx as [r [<- Hr]]. destruct (Each r Hr) as [Hd Hl].
        destruct (derive_profitable_sign orders r Hd) as [[_ S] | [S _]]; [exact S |].
        rewrite Hl in S. discriminate S. }
      split; [reflexivity | split; [exact P |]].
      apply (py_gt_Q _ 0) in P. change (@lit Q _ 0) with 0%Q. rewrite P. reflexivity.
    + right. assert (P : (Qsum (map Df.contribution_margin rows) <= 0)%Q).
      { apply Qsum_nonpos. apply Forall_forall. intros x Hx. apply in_map_iff in Hx.
        destruct Hx as [r [<- Hr]]. destruct (Each r Hr) as [Hd Hl].
        destruct (derive_profitable_sign orders r Hd) as [[S _] | [_ S]]; [| exact S].
        rewrite Hl in S. discriminate S. }
      split; [reflexivity | split; [exact P |]].
      assert (G : py_gt (Qsum (map Df.contribution_margin rows)) 0%Q = false)
        by (apply py_lt_Q_false; exact P).
      change (@lit Q _ 0) with 0%Q. rewrite G. reflexivity.
Qed.

(** X14: the pie of chart 3 takes its two colours by position, the bar
    chart beside it by label.  The two panels give every category the same
    colour exactly when no order is Loss-Making; otherwise the Loss-Making
    wedge has the colour that the bars give to Profitable. *)
Theorem pie_and_bar_colours (orders : list Order.t) :
  let df := derive orders in
  let t := profit_summary df in
  wedge_colors pie_colors (length t) = firstn (length t) pie_colors
  /\ (wedge_colors pie_colors (length t) = colors_bar t
      <-> has_band Df.profitable df "Loss-Making" = false)
  /\ (has_band Df.profitable df "Loss-Making" = true ->
      nth_error (map Profit.profitable t) 0 = Some "Loss-Making"
      /\ nth_error (wedge_colors pie_colors (length t)) 0 = Some "#3BB273"
      /\ nth_error (colors_bar t) 0 = Some "#E84855").
Proof.
  intros df t. unfold t. rewrite profit_summary_rows.
  unfold df. rewrite profit_summary_keys. fold df.
  unfold profit_labels. cbn [filter].
  destruct (has_band Df.profitable df "Loss-Making");
    destruct (has_band Df.profitable df "Profitable");
    cbn; repeat split; intros; try reflexivity; try discriminate.
Qed.

Lemma pie_and_bar_colours_witness :
  nth_error (map Profit.profitable (profit_summary (derive [order_A; order_B]))) 0
  = Some "Loss-Making"
  /\ nth_error (wedge_colors pie_colors (length (profit_summary (derive [order_A; order_B])))) 0
     = Some "#3BB273"
  /\ nth_error (colors_bar (profit_summary (derive [order_A; order_B]))) 0 = Some "#E84855".
Proof.
  apply (proj2 (proj2 (pie_and_bar_colours [order_A; order_B]))). reflexivity.
Defined.

(** ** The refund rates *)

Lemma Q_of_nat_le (a b : nat) : a <= b -> (Q_of_nat a <= Q_of_nat b)%Q.
Proof. intro H. unfold Q_of_nat, Qle. simpl. lia. Qed.

Lemma Q_of_nat_eq (a b : nat) : (Q_of_nat a == Q_of_nat b)%Q <-> a = b.
Proof. unfold Q_of_nat, Qeq. simpl. lia. Qed.

Lemma refund_rate_of_counts (a b : nat) :
  0 < b -> a <= b ->
  let rate := (Q_of_nat a / Q_of_nat b * 100)%Q in
  (0 <= rate)%Q /\ (rate <= 100)%Q
  /\ ((rate == 0)%Q <-> a = 0) /\ ((rate == 100)%Q <-> a = b).
Proof.
  intros Hb Hab rate.
  pose proof (Q_of_nat_pos b Hb) as Pb.
  pose proof (Q_of_nat_le 0 a (Nat.le_0_l a)) as Pa. change (Q_of_nat 0) with 0%Q in Pa.
  pose proof (Q_of_nat_le a b Hab) as Pab.
  assert (NZ : ~ (Q_of_nat b == 0)%Q) by (intro Z; rewrite Z in Pb; discriminate Pb).
  assert (E : (rate * Q_of_nat b == Q_of_nat a * 100)%Q) by (unfold rate; field; exact NZ).
  assert (Ha : (Q_of_nat a == 0)%Q <-> a = 0) by (apply (Q_of_nat_eq a 0)).
  repeat split.
  - apply Qnot_lt_le. intro L. assert ((rate * Q_of_nat b < 0)%Q) by nra. lra.
  - apply Qnot_lt_le. intro L. assert ((100 * Q_of_nat b < rate * Q_of_nat b)%Q) by nra. lra.
  - intro Z. apply Ha. rewrite Z in E. lra.
  - intros ->. unfold rate. change (Q_of_nat 0) with 0%Q. field. exact NZ.
  - intro Z. apply Q_of_nat_eq. rewrite Z in E. lra.
  - intros ->. unfold rate. field. exact NZ.
Qed.

(** X15: on every row of [rest_refund] the restaurant has at least one
    order (the rate never divides by zero), no more refunded orders than
    orders, and a refund rate between 0 and 100; the rate is 0 exactly when
    no order was refunded and 100 exactly when all were. *)
Theorem refund_rate_bounds (orders : list Order.t) :
  Forall (fun row =>
    1 <= Refund.total_orders row
    /\ Refund.refund_orders row <= Refund.total_orders row
    /\ (0 <= Refund.refund_rate row)%Q /\ (Refund.refund_rate row <= 100)%Q
    /\ ((Refund.refund_rate row == 0)%Q <-> Refund.refund_orders row = 0)
    /\ ((Refund.refund_rate row == 100)%Q
        <-> Refund.refund_orders row = Refund.total_orders row))
    (rest_refund (derive orders)).
Proof.
  rewrite rest_refund_rows. apply Forall_forall. intros row Hrow.
  apply in_map_iff in Hrow. destruct Hrow as [k [<- Hk]].
  apply groupby_key_iff in Hk. destruct Hk as [r [Hr Hk]].
  unfold rest_refund_row, refund_rate_spec.
  cbn [Refund.total_orders Refund.refund_orders Refund.refund_rate].
  set (rows := rows_in Df.restaurant_id k (derive orders)).
  assert (P : 0 < length rows).
  { assert (I : In r rows)
      by (apply filter_In; split; [exact Hr | apply String.eqb_eq; exact Hk]).
    destruct rows; [contradiction | simpl; lia]. }
  assert (L : length (filter refunded rows) <= length rows) by apply filter_length_le.
  destruct (refund_rate_of_counts _ _ P L) as [H1 [H2 [H3 H4]]].
  repeat split; try assumption; try lia; try (apply H3; assumption); try (apply H4; assumption).
Qed.

(** ** The ranking, continued *)

Lemma sorted_firstn {X} (R : X -> X -> Prop) (n : nat) (l : list X) :
  StronglySorted R l -> StronglySorted R (firstn n l).
Proof.
  intro S. revert n. induction S as [| x l S IH F]; intro n; destruct n; simpl;
    try constructor; [apply IH |].
  apply Forall_forall. intros a Ha. apply In_firstn in Ha.
  rewrite Forall_forall in F. auto.
Qed.

Lemma top_of_sorted (t : list Refund.row) : StronglySorted (le_prop rate_ge) (top_of t).
Proof.
  unfold top_of, nlargest. apply sorted_firstn.
  apply (sort_by_sorted rate_ge rate_ge_total rate_ge_trans).
Qed.

(** In a list in descending order of rate, the rows above a threshold come
    first. *)
Lemma flagged_first (l : list Refund.row) (q : Q) (hot cold : string) :
  StronglySorted (le_prop rate_ge) l ->
  exists k,
    k <= length l
    /\ map (fun r => if py_gt (Refund.refund_rate r) q then hot else cold) l
       = repeat hot k ++ repeat cold (length l - k)
    /\ k = length (filter (fun r => py_gt (Refund.refund_rate r) q) l).
Proof.
  induction 1 as [| x l Hs IH F].
  - exists 0. repeat split; auto.
  - destruct IH as [k [Hk [E C]]]. cbn [map filter length].
    destruct (py_gt (Refund.refund_rate x) q) eqn:G.
    + exists (S k). cbn [length]. repeat split; [lia | | lia].
      rewrite E. replace (S (length l) - S k) with (length l - k) by lia. reflexivity.
    + exists 0. assert (Z : k = 0).
      { rewrite C. destruct (filter _ l) as [| y f] eqn:Ef; [reflexivity |].
        exfalso. assert (I : In y (filter (fun r => py_gt (Refund.refund_rate r) q) l))
          by (rewrite Ef; left; reflexivity).
        apply filter_In in I. destruct I as [Iy Gy].
        rewrite Forall_forall in F. specialize (F y Iy).
        unfold le_prop, rate_ge in F. apply Qle_bool_iff in F.
        apply py_gt_Q in Gy. unfold py_gt in G. apply py_lt_Q_false in G. lra. }
      repeat split; [lia | | ].
      * rewrite E, Z, !Nat.sub_0_r. reflexivity.
      * rewrite <- C, Z. reflexivity.
Qed.

(** X16: the bars of chart 6 are red for the restaurants with a refund
    rate above 20 and blue for the others (a rate of exactly 20 is blue);
    the table being in descending order of rate, the red bars are the
    first ones and no red bar follows a blue one. *)
Theorem colors_ref_red_first (orders : list Order.t) :
  let t := top_refund (derive orders) in
  exists k,
    k = length (filter (fun r => py_gt (Refund.refund_rate r) 20%Q) t)
    /\ k <= length t
    /\ colors_ref t = repeat "#E84855" k ++ repeat "#2E86AB" (length t - k).
Proof.
  intro t.
  destruct (flagged_first t 20%Q "#E84855" "#2E86AB" (top_of_sorted _)) as [k [Hk [E C]]].
  exists k. split; [exact C | split; [exact Hk | exact E]].
Qed.

Lemma NoDup_map_filter {X Y} (f : X -> Y) (p : X -> bool) (l : list X) :
  NoDup (map f l) -> NoDup (map f (filter p l)).
Proof.
  induction l as [| x l IH]; simpl; intro D; [constructor |].
  inversion D as [| ? ? N D']; subst.
  destruct (p x); simpl; [| auto].
  constructor; [| auto].
  intro H. apply N. apply in_map_iff in H. destruct H as [y [E Hy]].
  apply filter_In in Hy. apply in_map_iff. exists y. tauto.
Qed.

(** X17: [top_refund] names no restaurant twice; when at most ten
    restaurants have five orders or more it holds all of them, and when none
    has it is empty. *)
Theorem top_refund_no_cut (orders : list Order.t) :
  let table := rest_refund (derive orders) in
  let top := top_refund (derive orders) in
  NoDup (map Refund.restaurant_id top)
  /\ (length (qualified table) <= 10 -> Permutation top (qualified table))
  /\ (qualified table = [] -> top = []).
Proof.
  intros table top.
  assert (S : top = firstn 10 (sort_by rate_ge (qualified table))) by reflexivity.
  split; [| split].
  - assert (D : NoDup (map Refund.restaurant_id (sort_by rate_ge (qualified table)))).
    { apply (Permutation_NoDup
               (Permutation_sym (Permutation_map _ (sort_by_perm rate_ge (qualified table))))).
      apply NoDup_map_filter. unfold table. rewrite rest_refund_keys.
      apply sorted_keys_NoDup, groupby_keys_sorted. }
    rewrite S. rewrite <- (firstn_skipn 10 (sort_by rate_ge (qualified table))) in D.
    rewrite map_app in D. apply NoDup_app_remove_r in D. exact D.
  - intro L. rewrite S, firstn_all2 by (rewrite sort_by_length; exact L).
    apply sort_by_perm.
  - intro E. rewrite S, E. reflexivity.
Qed.

(** Both restaurants of [orders_ties] have five orders: the ranking holds
    the two of them. *)
Lemma top_refund_no_cut_witness :
  length (qualified (rest_refund (derive orders_ties))) = 2
  /\ Permutation (top_refund (derive orders_ties))
       (qualified (rest_refund (derive orders_ties))).
Proof.
  split; [reflexivity |].
  apply (proj1 (proj2 (top_refund_no_cut orders_ties))).
  change (2 <= 10). lia.
Defined.

(** ** The sort key of chart 4 and the order of the bands *)

Ltac band_position :=
  repeat match goal with
    | H : _ /\ _ |- _ => destruct H
    | H : discount_band _ = _ |- _ => rewrite H; clear H
    | H : order_band _ = _ |- _ => rewrite H; clear H
    end;
  cbn; try lia; try (exfalso; lra).

(** X18: [order_map] has a key for every label [discount_band] can return
    (its value is the place of the label in No Discount, Low, Mid, High) and
    for no other string, so the [sort] column of [disc_impact] never has a
    missing value. *)
Theorem order_map_covers_discount_band :
  (forall (A : Type) (N : PyNum A) (d : A),
     order_map (discount_band d) = Some (position (discount_band d) discount_bands))
  /\ (forall s : string, order_map s = None <-> ~ In s discount_bands)
  /\ (forall orders : list Order.t,
        Forall (fun r => exists i, Disc.sort r = Some i /\ i < 4)
          (disc_impact (derive orders))).
Proof.
  assert (P : forall (A : Type) (N : PyNum A) (d : A),
             order_map (discount_band d) = Some (position (discount_band d) discount_bands)).
  { intros A N d. unfold discount_band.
    destruct (py_eq d (lit 0)); [reflexivity |].
    destruct (py_le d (lit 5)); [reflexivity |].
    destruct (py_le d (lit 15)); reflexivity. }
  split; [exact P | split].
  - intro s. unfold order_map, discount_bands. cbn [In].
    destruct (String.eqb_spec s "No Discount") as [-> | N0];
      [split; [discriminate | intro H; exfalso; apply H; auto] |].
    destruct (String.eqb_spec s "Low (1-5)") as [-> | N1];
      [split; [discriminate | intro H; exfalso; apply H; auto] |].
    destruct (String.eqb_spec s "Mid (6-15)") as [-> | N2];
      [split; [discriminate | intro H; exfalso; apply H; auto] |].
    destruct (String.eqb_spec s "High (15+)") as [-> | N3];
      [split; [discriminate | intro H; exfalso; apply H; auto 6] |].
    split; [| reflexivity]. intros _ [H | [H | [H | [H | []]]]]; congruence.
  - intro orders. rewrite disc_impact_rows. apply Forall_forall. intros row Hrow.
    apply sort_by_In in Hrow. apply in_map_iff in Hrow. destruct Hrow as [k [<- Hk]].
    apply groupby_key_iff in Hk. destruct Hk as [r [Hr <-]].
    apply derive_In in Hr. destruct Hr as [o [_ ->]].
    cbn [Disc.sort disc_row Df.discount_band derive_row]. rewrite P.
    eexists. split; [reflexivity |].
    pose proof (discount_band_in (Order.discounts_and_offers o)) as I.
    unfold discount_bands in *. cbn [In] in I.
    destruct I as [<- | [<- | [<- | [<- | []]]]]; cbn; lia.
Qed.

(** X19: a larger order value never falls in a lower band, and among the
    discounts from 0 upwards a larger discount never falls in a lower band.
    Below 0 the discount bands are out of order: -1 is in the Low band,
    above the band of 0. *)
Theorem bands_monotone :
  (forall v1 v2 : Q, (v1 <= v2)%Q ->
     position (order_band v1) band_order <= position (order_band v2) band_order)
  /\ (forall d1 d2 : Q, (0 <= d1)%Q -> (d1 <= d2)%Q ->
        position (discount_band d1) discount_bands
        <= position (discount_band d2) discount_bands)
  /\ position (discount_band (- (1))%Q) discount_bands = 1
  /\ position (discount_band 0%Q) discount_bands = 0.
Proof.
  split; [| split; [| split; reflexivity]].
  - intros v1 v2 H.
    destruct (order_band_Q_cases v1) as [C1 | [C1 | [C1 | C1]]];
      destruct (order_band_Q_cases v2) as [C2 | [C2 | [C2 | C2]]]; band_position.
  - intros d1 d2 H0 H.
    destruct (discount_band_Q_cases d1) as [C1 | [C1 | [C1 | C1]]];
      destruct (discount_band_Q_cases d2) as [C2 | [C2 | [C2 | C2]]]; band_position.
Qed.

Lemma bands_monotone_witness :
  position (order_band 20%Q) band_order <= position (order_band 45%Q) band_order.
Proof.
  apply (proj1 bands_monotone 20%Q 45%Q). discriminate.
Defined.

(** ** The months in order *)

Lemma digit_compare_small (x y : nat) :
  x < 10 -> y < 10 ->
  Ascii_as_OT.compare (ascii_of_nat (48 + x)) (ascii_of_nat (48 + y)) = Nat.compare x y.
Proof.
  intros Hx Hy.
  do 10 (destruct x as [| x]; [do 10 (destruct y as [| y]; [reflexivity |]); lia |]).
  lia.
Qed.

Lemma digit_compare (a b : nat) :
  Ascii_as_OT.compare (digit a) (digit b) = Nat.compare (a mod 10) (b mod 10).
Proof.
  unfold digit. apply digit_compare_small; apply Nat.mod_upper_bound; discriminate.
Qed.

Lemma digits4 (a : nat) :
  a < 100 * 100 ->
  a = 1000 * ((a / 1000) mod 10) + 100 * ((a / 100) mod 10) + 10 * ((a / 10) mod 10)
      + a mod 10.
Proof.
  intro Ha.
  pose proof (Nat.div_mod_eq a 10) as A0.
  pose proof (Nat.div_mod_eq (a / 10) 10) as A1.
  pose proof (Nat.div_mod_eq (a / 10 / 10) 10) as A2.
  pose proof (Nat.div_mod_eq (a / 10 / 10 / 10) 10) as A3.
  assert (E1 : a / 100 = a / 10 / 10) by (rewrite Nat.Div0.div_div; reflexivity).
  assert (E2 : a / 1000 = a / 10 / 10 / 10) by (rewrite !Nat.Div0.div_div; reflexivity).
  rewrite E1, E2.
  assert (a / 10 / 10 / 10 / 10 = 0).
  { apply Nat.div_small_iff; [discriminate |].
    do 3 apply Nat.Div0.div_lt_upper_bound. lia. }
  lia.
Qed.

Lemma digits2 (m : nat) : m < 100 -> m = 10 * ((m / 10) mod 10) + m mod 10.
Proof.
  intro Hm. pose proof (Nat.div_mod_eq m 10).
  assert (m / 10 < 10) by (apply Nat.Div0.div_lt_upper_bound; lia).
  rewrite (Nat.mod_small (m / 10)) by assumption. lia.
Qed.

Ltac digit_var e :=
  let B := fresh "B" in
  pose proof (Nat.mod_upper_bound e 10 ltac:(discriminate)) as B;
  generalize dependent (e mod 10); intro.

(** X21: for timestamps with a year of at most four digits and a month of
    at most two, the order of strings on [order_month] is the order of
    time: the month keys are zero-padded, so the sorted rows of [monthly]
    are in chronological order. *)
Theorem order_month_chronological (t1 t2 : Timestamp) :
  year t1 < 100 * 100 -> year t2 < 100 * 100 -> month t1 < 100 -> month t2 < 100 ->
  (str_lt (period_M_str t1) (period_M_str t2)
   <-> year t1 < year t2 \/ (year t1 = year t2 /\ month t1 < month t2)).
Proof.
  intros Y1 Y2 M1 M2.
  pose proof (digits4 _ Y1) as D1. pose proof (digits4 _ Y2) as D2.
  pose proof (digits2 _ M1) as E1. pose proof (digits2 _ M2) as E2.
  unfold str_lt, String_as_OT.lt, period_M_str.
  cbn [String_as_OT.compare]. rewrite !digit_compare.
  change (Ascii_as_OT.compare "-" "-") with Eq. cbv iota.
  digit_var (year t1 / 1000). digit_var (year t1 / 100). digit_var (year t1 / 10).
  digit_var (year t1).
  digit_var (year t2 / 1000). digit_var (year t2 / 100). digit_var (year t2 / 10).
  digit_var (year t2).
  digit_var (month t1 / 10). digit_var (month t1).
  digit_var (month t2 / 10). digit_var (month t2).
  intros.
  repeat match goal with
    | |- context [Nat.compare ?x ?y] => destruct (Nat.compare_spec x y)
    end;
    split; intro; try discriminate; try reflexivity; try lia.
Qed.

Lemma order_month_chronological_witness :
  str_lt (period_M_str (ts 2023 12 31)) (period_M_str (ts 2024 1 1))
  <-> 2023 < 2024 \/ (2023 = 2024 /\ 12 < 1).
Proof.
  apply (order_month_chronological (ts 2023 12 31) (ts 2024 1 1)); cbn; lia.
Defined.

(** X6: the rows of [monthly] are in ascending order of their month key,
    after the [sort_values] of line 80 as before it. *)
Theorem monthly_sorted (orders : list Order.t) :
  StronglySorted str_lt (map Monthly.order_month (monthly (derive orders))).
Proof. rewrite monthly_keys. apply groupby_keys_sorted. Qed.

(** ** The discount and profitability rows *)

(** X22: every row of [disc_impact] carries the reducers of the orders of
    its discount band (their number, the mean of their order values and the
    mean of their margins), and every row of [profit_summary] those of the
    orders with its label (their number, the sum of their margins and the
    mean of their order values). *)
Theorem disc_and_profit_rows (orders : list Order.t) :
  let df := derive orders in
  Forall (fun row =>
    let rows := rows_in Df.discount_band (Disc.discount_band row) df in
    rows <> []
    /\ Disc.order_count row = length rows
    /\ Disc.avg_order_value row
       = (Qsum (map Df.order_value rows) / Q_of_nat (length rows))%Q
    /\ Disc.avg_contribution row
       = (Qsum (map Df.contribution_margin rows) / Q_of_nat (length rows))%Q)
    (disc_impact df)
  /\ Forall (fun row =>
       let rows := rows_in Df.profitable (Profit.profitable row) df in
       rows <> []
       /\ Profit.order_count row = length rows
       /\ Profit.total_margin row = Qsum (map Df.contribution_margin rows)
       /\ Profit.avg_order_value row
          = (Qsum (map Df.order_value rows) / Q_of_nat (length rows))%Q)
     (profit_summary df).
Proof.
  intro df.
  assert (NE : forall col k, In k (map fst (groupby col df)) -> rows_in col k df <> []).
  { intros col k Hk. apply groupby_key_iff in Hk. destruct Hk as [r [Hr Hk]].
    assert (I : In r (rows_in col k df))
      by (apply filter_In; split; [exact Hr | apply String.eqb_eq; exact Hk]).
    intro Z. rewrite Z in I. exact I. }
  split; apply Forall_forall; intros row Hrow.
  - rewrite disc_impact_rows in Hrow. apply sort_by_In in Hrow.
    apply in_map_iff in Hrow. destruct Hrow as [k [<- Hk]]. cbn.
    split; [apply NE; exact Hk | repeat split].
  - rewrite profit_summary_rows in Hrow.
    apply in_map_iff in Hrow. destruct Hrow as [k [<- Hk]]. cbn.
    split; [apply NE; exact Hk | repeat split].
Qed.

(** ** The files of a run *)

(** X23: after a run the figure directory exists and holds the six figures
    of the run under their six names, each showing its table; every other
    file of the directory is as it was before. *)
Theorem run_files (w w1 : World) (t : Reports) :
  run w = Some (w1, t) ->
  exists files,
    visualizations w1 = Some files
    /\ (forall name fig, In (name, fig) (figures_of t) -> assoc name files = Some fig)
    /\ (forall name, ~ In name (map fst (figures_of t)) ->
          assoc name files = assoc name (files_before w)).
Proof.
  rewrite run_result. destruct (food_orders_csv w) as [orders |]; [| discriminate].
  cbv zeta.
  set (t0 := reports_of (derive orders) (map (band_data_row (derive orders)) band_order)).
  fold (files_before w). intro H.
  assert (E1 : w1 = {| food_orders_csv := Some orders;
                       visualizations := Some (write_all (figures_of t0) (files_before w)) |})
    by congruence.
  assert (E2 : t = t0) by congruence.
  subst w1 t. eexists. split; [reflexivity | split].
  - intros name fig Hin. apply assoc_write_all; [apply figures_of_names | exact Hin].
  - intros name Hn. apply assoc_write_all_other. exact Hn.
Qed.

Lemma run_files_witness :
  exists w1 t files,
    run world_used = Some (w1, t)
    /\ visualizations w1 = Some files
    /\ assoc "monthly_gmv_trend.png" files = Some (FigMonthly (rep_monthly t)).
Proof.
  destruct (run world_used) as [[w1 t] |] eqn:E; [| discriminate E].
  destruct (run_files world_used w1 t E) as [files [V [F _]]].
  exists w1, t, files. split; [reflexivity | split; [exact V |]].
  apply F. cbn. auto.
Defined.

(** ** The order of the lines of the file *)

Lemma filter_perm {X} (p : X -> bool) (l l' : list X) :
  Permutation l l' -> Permutation (filter p l) (filter p l').
Proof.
  induction 1 as [| x l l' _ IH | x y l | l1 l2 l3 _ IH1 _ IH2]; simpl.
  - constructor.
  - destruct (p x); [constructor |]; exact IH.
  - destruct (p x), (p y); try reflexivity. apply perm_swap.
  - exact (Permutation_trans IH1 IH2).
Qed.

Lemma rows_in_perm (col : Df.row -> string) (k : string) (df df' : list Df.row) :
  Permutation df df' -> Permutation (rows_in col k df) (rows_in col k df').
Proof. apply filter_perm. Qed.

(** The keys of a grouping do not depend on the order of the rows. *)
Lemma groupby_keys_perm (col : Df.row -> string) (df df' : list Df.row) :
  Permutation df df' -> map fst (groupby col df) = map fst (groupby col df').
Proof.
  intro P. apply sorted_same_members; try apply groupby_keys_sorted.
  intro k. rewrite !groupby_key_iff.
  split; intros [r [Hr Hk]]; exists r; (split; [| exact Hk]).
  - exact (Permutation_in _ P Hr).
  - exact (Permutation_in _ (Permutation_sym P) Hr).
Qed.

Lemma map_filter_factor {X Y} (f : X -> Y) (p : Y -> bool) (l : list X) :
  map f (filter (fun x => p (f x)) l) = filter p (map f l).
Proof.
  induction l as [| x l IH]; simpl; [reflexivity |].
  destruct (p (f x)); simpl; rewrite IH; reflexivity.
Qed.

(** The ranking reads the rows through [rank_key] only. *)
Lemma top_of_rank_key (t : list Refund.row) :
  map rank_key (top_of t)
  = firstn 10
      (sort_by (fun a b => Qle_bool (snd b) (snd a))
         (filter (fun k => (5 <=? snd (fst (fst k)))%nat) (map rank_key t))).
Proof.
  unfold top_of, nlargest.
  rewrite <- (map_filter_factor rank_key (fun k => (5 <=? snd (fst (fst k)))%nat)).
  rewrite (sort_by_map rank_key (fun a b => Qle_bool (snd b) (snd a))).
  rewrite firstn_map. reflexivity.
Qed.

Lemma rest_refund_rank_keys (df : list Df.row) :
  map rank_key (rest_refund df)
  = map (fun k =>
           let rows := rows_in Df.restaurant_id k df in
           (k, length rows, length (filter refunded rows),
            (Q_of_nat (length (filter refunded rows)) / Q_of_nat (length rows) * 100)%Q))
      (map fst (groupby Df.restaurant_id df)).
Proof. rewrite rest_refund_rows, map_map. reflexivity. Qed.

(** X24: the ranking does not depend on the order of the lines of the
    file: for two inputs with the same orders in any order, [top_refund]
    lists the same restaurants in the same order, with the same counts and
    rates. *)
Theorem ranking_ignores_line_order (orders orders' : list Order.t) :
  Permutation orders orders' ->
  map rank_key (top_refund (derive orders)) = map rank_key (top_refund (derive orders')).
Proof.
  intro P. unfold top_refund. rewrite !top_of_rank_key. do 3 f_equal.
  assert (PD : Permutation (derive orders) (derive orders')) by (apply Permutation_map, P).
  rewrite !rest_refund_rank_keys, (groupby_keys_perm _ _ _ PD).
  apply map_ext. intro k. cbv zeta.
  pose proof (rows_in_perm Df.restaurant_id k _ _ PD) as R.
  rewrite (Permutation_length R), (Permutation_length (filter_perm refunded _ _ R)).
  reflexivity.
Qed.

(** The ten lines of [orders_ties] read from the last to the first rank
    the same two restaurants in the same order. *)
Lemma ranking_ignores_line_order_witness :
  length (top_refund (derive orders_ties)) = 2
  /\ map rank_key (top_refund (derive orders_ties))
     = map rank_key (top_refund (derive (rev orders_ties))).
Proof.
  split; [reflexivity |].
  apply (ranking_ignores_line_order orders_ties (rev orders_ties)).
  apply Permutation_rev.
Defined.

(** X25: the months and the counts of the monthly table do not depend on
    the order of the lines of the file: the same months in the same order
    with the same numbers of orders. *)
Theorem monthly_ignores_line_order (orders orders' : list Order.t) :
  Permutation orders orders' ->
  map Monthly.order_month (monthly (derive orders))
  = map Monthly.order_month (monthly (derive orders'))
  /\ map Monthly.total_orders (monthly (derive orders))
     = map Monthly.total_orders (monthly (derive orders')).
Proof.
  intro P.
  assert (PD : Permutation (derive orders) (derive orders')) by (apply Permutation_map, P).
  rewrite !monthly_rows, (groupby_keys_perm Df.order_month _ _ PD), !map_map.
  cbn [Monthly.order_month Monthly.total_orders monthly_row].
  split; [reflexivity |].
  apply map_ext. intro k.
  apply Permutation_length, rows_in_perm, PD.
Qed.

Lemma monthly_ignores_line_order_witness :
  map Monthly.total_orders (monthly (derive [order_A; order_B]))
  = map Monthly.total_orders (monthly (derive [order_B; order_A])).
Proof.
  apply (proj2 (monthly_ignores_line_order [order_A; order_B] [order_B; order_A]
                  (perm_swap _ _ _))).
Defined.

(** ** The quotient of line 185 *)

(** X26: the lookup [df.loc[x.index, "order_value"]] of line 185 finds
    every label of every group, and what it reads are the order values of
    the rows of that group, in the order of the group: the function raises
    for no group of any table. *)
Theorem band_lookup_reads_own_group (df : list Df.row) :
  Forall (fun kg =>
    loc_col df Df.order_value (map fst (column Df.delivery_fee (snd kg)))
    = Some (column Df.order_value (snd kg))
    /\ delivery_fee_pct_of df (column Df.delivery_fee (snd kg))
       = Some (times_100 (nanmean (column fee_share (snd kg)))))
    (groupby Df.order_band df).
Proof.
  apply Forall_forall. intros [k g] H. cbn [snd].
  pose proof (band_agg_total df (k, g) H) as A.
  apply groupby_In in H. destruct H as [-> _].
  assert (L : loc_col df Df.order_value
                (map fst (column Df.delivery_fee (group_at Df.order_band df k)))
              = Some (column Df.order_value (group_at Df.order_band df k)))
    by (apply loc_col_group, group_at_loc).
  split; [exact L |].
  unfold delivery_fee_pct_of. rewrite L. cbn [bind].
  rewrite series_div_column. reflexivity.
Qed.

Lemma nanmean_values_kept (l : list Float64) :
  nanmean_values l = nanmean_values (filter (fun x => negb (is_nan x)) l).
Proof.
  unfold nanmean_values.
  assert (I : filter (fun x => negb (is_nan x)) (filter (fun x => negb (is_nan x)) l)
              = filter (fun x => negb (is_nan x)) l).
  { induction l as [| x l IH]; [reflexivity |].
    cbn [filter]. destruct (negb (is_nan x)) eqn:E; [| exact IH].
    cbn [filter]. rewrite E, IH. reflexivity. }
  rewrite I. reflexivity.
Qed.

Lemma fee_share_cases (r : Df.row) :
  (Qeq_bool (Df.order_value r) 0 = false
   /\ fee_share r = Fin (Df.delivery_fee r / Df.order_value r))
  \/ (Qeq_bool (Df.order_value r) 0 = true /\ Qeq_bool (Df.delivery_fee r) 0 = true
      /\ fee_share r = NaN)
  \/ (Qeq_bool (Df.order_value r) 0 = true /\ Qeq_bool (Df.delivery_fee r) 0 = false
      /\ (fee_share r = PInf \/ fee_share r = NInf)).
Proof.
  unfold fee_share, float_div.
  destruct (Qeq_bool (Df.order_value r) 0); [| left; auto].
  destruct (Qeq_bool (Df.delivery_fee r) 0); [right; left; auto |].
  right; right. destruct (Qle_bool 0 (Df.delivery_fee r)); auto.
Qed.

(** Without a fee on an order value of zero, the cells the mean keeps are
    the quotients of the rows that have an order value. *)
Lemma fee_share_kept (rows : list Df.row) :
  fee_on_nothing rows = [] ->
  filter (fun x => negb (is_nan x)) (map fee_share rows)
  = map Fin (map (fun r => (Df.delivery_fee r / Df.order_value r)%Q) (valued rows)).
Proof.
  unfold fee_on_nothing, valued.
  induction rows as [| r rows IH]; [reflexivity |].
  cbn [filter map].
  destruct (fee_share_cases r) as [[V ->] | [[V [F ->]] | [V [F _]]]];
    rewrite V; try rewrite F; cbn [negb andb is_nan filter map].
  - intro N. rewrite (IH N). reflexivity.
  - exact IH.
  - discriminate.
Qed.

Lemma fee_on_nothing_infinite (rows : list Df.row) :
  fee_on_nothing rows <> [] ->
  exists x, In x (map fee_share rows) /\ (x = PInf \/ x = NInf).
Proof.
  unfold fee_on_nothing. intro N.
  destruct (filter _ rows) as [| r l] eqn:E; [contradiction |].
  assert (I : In r (r :: l)) by (left; reflexivity).
  rewrite <- E in I. apply filter_In in I. destruct I as [I C].
  apply andb_true_iff in C. destruct C as [V F]. apply negb_true_iff in F.
  exists (fee_share r). split; [apply in_map; exact I |].
  destruct (fee_share_cases r) as [[V' _] | [[_ [F' _]] | [_ [_ H]]]];
    [congruence | congruence | exact H].
Qed.

(** The percentage of a band, by the order values of zero among its rows. *)
Lemma pct_of_rows (rows : list Df.row) :
  match fee_on_nothing rows, valued rows with
  | [], [] => times_100 (nanmean_values (map fee_share rows)) = NaN
  | [], _ :: _ =>
      times_100 (nanmean_values (map fee_share rows))
      = Fin (Qsum (map (fun r => Df.delivery_fee r / Df.order_value r) (valued rows))
             / Q_of_nat (length (valued rows)) * 100)%Q
  | _ :: _, _ => forall q, times_100 (nanmean_values (map fee_share rows)) <> Fin q
  end.
Proof.
  destruct (fee_on_nothing rows) as [| s0 l0] eqn:S.
  - rewrite nanmean_values_kept, (fee_share_kept rows S).
    destruct (valued rows) as [| v l] eqn:V; [reflexivity |].
    rewrite nanmean_values_finite by discriminate.
    rewrite length_map. reflexivity.
  - intros q E.
    destruct (fee_on_nothing_infinite rows) as [x [I X]]; [rewrite S; discriminate |].
    destruct (nanmean_values (map fee_share rows)) as [q' | | |] eqn:M;
      try discriminate E.
    apply nanmean_values_number in M. destruct M as [M _].
    rewrite Forall_forall in M. destruct (M x I) as [M1 M2].
    destruct X; contradiction.
Qed.

(** X27: orders without value in the delivery-fee percentage of a band.  An
    order with neither value nor fee is left out of the mean (its quotient
    is NaN and [mean] skips it), so the percentage is 100 times the mean of
    [delivery_fee / order_value] over the other orders of the band, and
    missing when there is none; an order with a fee on a value of zero
    makes the percentage of its band an infinity or NaN, never a number. *)
Theorem delivery_fee_pct_zero_values (df : list Df.row) :
  exists t,
    band_data df = Some t
    /\ map Band.order_band t = band_order
    /\ Forall (fun row =>
         let rows := rows_in Df.order_band (Band.order_band row) df in
         match fee_on_nothing rows, valued rows with
         | [], [] => Band.delivery_fee_pct row = NaN
         | [], _ :: _ =>
             Band.delivery_fee_pct row
             = Fin (Qsum (map (fun r => Df.delivery_fee r / Df.order_value r) (valued rows))
                    / Q_of_nat (length (valued rows)) * 100)%Q
         | _ :: _, _ => forall q, Band.delivery_fee_pct row <> Fin q
         end) t.
Proof.
  exists (map (band_data_row df) band_order).
  split; [apply band_data_rows |]. split.
  - rewrite map_map. unfold band_data_row.
    rewrite <- (map_id band_order) at 2. apply map_ext.
    intro b. destruct (has_band Df.order_band df b); reflexivity.
  - apply Forall_forall. intros row Hrow.
    apply in_map_iff in Hrow. destruct Hrow as [b [<- _]].
    assert (B : Band.order_band (band_data_row df b) = b)
      by (unfold band_data_row; destruct (has_band Df.order_band df b); reflexivity).
    rewrite B. cbv zeta.
    assert (P : Band.delivery_fee_pct (band_data_row df b)
                = times_100 (nanmean_values (map fee_share (rows_in Df.order_band b df)))).
    { unfold band_data_row. rewrite has_band_rows.
      destruct (rows_in Df.order_band b df) as [| r rows]; reflexivity. }
    rewrite P. apply pct_of_rows.
Qed.

(** Two orders of the lowest band, a fee of 3 on a value of 10 and an
    order with neither value nor fee: the percentage is 30, not 15.  With
    a fee of 2 on the order without value it is an infinity. *)
Lemma delivery_fee_pct_zero_values_witness :
  (exists t row q,
     band_data (derive orders_zero_value) = Some t
     /\ nth_error t 0 = Some row
     /\ Band.delivery_fee_pct row = Fin q /\ (q == 30)%Q)
  /\ option_map (map Band.delivery_fee_pct) (band_data (derive orders_fee_on_nothing))
     = Some [PInf; NaN; NaN; NaN].
Proof.
  split; [| reflexivity].
  destruct (delivery_fee_pct_zero_values (derive orders_zero_value)) as [t [T [B F]]].
  destruct t as [| row t]; [discriminate B |].
  injection B as B0 _.
  apply Forall_inv in F. rewrite B0 in F.
  exists (row :: t), row. eexists.
  split; [exact T |]. split; [reflexivity |].
  split; [exact F | reflexivity].
Defined.
